(** * Transaction categorisation and aggregation engine

    A shallow embedding of [lib/transaction-analyzer.ts] (the classifier
    [categorizeTransaction], the aggregation [analyzeTransactions] and the
    three counting views) and of the shape guard [isValidExtractedPageData]
    of the extraction route, together with the properties the specification
    states about them; and of the code around them: the extraction route
    [POST], the end of [processFile] and its sharpening filter in the
    upload component, the page switch, the filter of the transaction
    table and the data of the category chart.

    JavaScript values are modelled as follows.
    - A [number] is an element of any type carrying the operations the code
      uses ([JSNumber]): the literal [0], [+], the tests [x > 0] and [x < 0],
      and the value [NaN] that [undefined + x] produces.  [Float64] is the
      instance the program really runs on (IEEE 754 binary64, Rocq's
      primitive floats); [Integral] is exact integer arithmetic with [NaN].
      A property that needs sums without rounding is stated, in whatever
      arithmetic, for the amounts that add up exactly ([CountedWithin]).
    - A string is a [string]; [includes] is the substring test.
    - An object used as a dictionary is an association list in insertion
      order, the order [Object.entries] and [Object.values] enumerate.
    - [String.prototype.toLowerCase] and [new Date(s).getTime()] are host
      functions; the engine is parameterised by them. *)

From Stdlib Require Import ZArith List String Ascii Bool Lia.
From Stdlib Require Import Sorting.Sorted Sorting.Permutation.
From Stdlib Require Import Floats.
Import ListNotations.
Local Open Scope string_scope.

Set Implicit Arguments.
Set Warnings "-register-all,-inexact-float".


(** ** Numbers *)

Class JSNumber (num : Type) : Type := {
  zero : num;                      (* the literal 0 *)
  nan : num;                       (* NaN *)
  add : num -> num -> num;         (* x + y *)
  gt0 : num -> bool;               (* x > 0 *)
  lt0 : num -> bool;               (* x < 0 *)
  gt0_zero : gt0 zero = false;
  lt0_zero : lt0 zero = false
}.

(** IEEE 754 binary64, the arithmetic of the running program. *)
#[export] Instance Float64 : JSNumber float := {|
  zero := 0%float;
  nan := PrimFloat.nan;
  add := PrimFloat.add;
  gt0 := fun x => PrimFloat.ltb 0%float x;
  lt0 := fun x => PrimFloat.ltb x 0%float;
  gt0_zero := eq_refl;
  lt0_zero := eq_refl
|}.

(** Exact arithmetic: integer amounts (an amount counted in its smallest
    unit), extended with an absorbing [NaN]. *)
Inductive integral : Type :=
  | Int (z : Z)
  | NaN.

Definition integral_add (x y : integral) : integral :=
  match x, y with
  | Int a, Int b => Int (a + b)
  | _, _ => NaN
  end.

Definition integral_gt0 (x : integral) : bool :=
  match x with Int a => (0 <? a)%Z | NaN => false end.

Definition integral_lt0 (x : integral) : bool :=
  match x with Int a => (a <? 0)%Z | NaN => false end.

#[export] Instance Integral : JSNumber integral := {|
  zero := Int 0;
  nan := NaN;
  add := integral_add;
  gt0 := integral_gt0;
  lt0 := integral_lt0;
  gt0_zero := eq_refl;
  lt0_zero := eq_refl
|}.

(** ** Strings *)

(** [s.includes(sub)] *)
Fixpoint includes (s sub : string) : bool :=
  String.prefix sub s ||
  match s with
  | EmptyString => false
  | String _ s' => includes s' sub
  end.

(** [sub] occurs in [s]. *)
Definition Substring (sub s : string) : Prop :=
  exists before after, s = before ++ sub ++ after.

(** ASCII lower-casing, the restriction of [toLowerCase] to ASCII text. *)
Definition asciiLowerChar (c : ascii) : ascii :=
  let n := nat_of_ascii c in
  if (65 <=? n)%nat && (n <=? 90)%nat then ascii_of_nat (n + 32) else c.

Fixpoint asciiLower (s : string) : string :=
  match s with
  | EmptyString => EmptyString
  | String c s' => String (asciiLowerChar c) (asciiLower s')
  end.

(** ** Objects used as dictionaries *)

Section Dictionary.
Variable V : Type.

Definition dict : Type := list (string * V).

(** [o[k]], [None] standing for [undefined] *)
Fixpoint lookup (k : string) (o : dict) : option V :=
  match o with
  | [] => None
  | (k', v) :: o' => if String.eqb k k' then Some v else lookup k o'
  end.

(** [o[k] = f(o[k])]: an existing key keeps its place, a new key is
    appended.  Keys are ordinary property names: the ten category
    identifiers, and in [counts] whatever [type] a transaction carries,
    taken not to be an index or a property of [Object.prototype]. *)
Fixpoint update (k : string) (f : option V -> V) (o : dict) : dict :=
  match o with
  | [] => [(k, f None)]
  | (k', v) :: o' =>
      if String.eqb k k' then (k', f (Some v)) :: o'
      else (k', v) :: update k f o'
  end.

Definition keys (o : dict) : list string := map fst o.
Definition values (o : dict) : list V := map snd o.
End Dictionary.

(** ** Category rule table *)

(** [CATEGORY_RULES], in declaration order. *)
Definition CATEGORY_RULES : list (string * list string) :=
 [
  ("food",
    ["restaurant"; "cafe"; "coffee"; "pizza"; "burger"; "food"; "grocery";
     "supermarket"; "mcdonalds"; "kfc"; "subway"; "starbucks"; "dunkin";
     "uber eats"; "doordash"; "grubhub"; "deliveroo"; "just eat"; "takeaway";
     "dining"; "lunch"; "dinner"; "breakfast"; "meal"; "kitchen"; "bakery";
     "deli"; "market"; "fresh"; "organic"]);
  ("shopping",
    ["amazon"; "ebay"; "walmart"; "target"; "costco"; "mall"; "store";
     "shop"; "retail"; "clothing"; "fashion"; "shoes"; "electronics";
     "apple"; "best buy"; "home depot"; "lowes"; "ikea"; "furniture";
     "department"; "outlet"; "boutique"; "online"; "purchase"; "buy";
     "order"; "merchandise"; "goods"]);
  ("leisure",
    ["netflix"; "spotify"; "hulu"; "disney"; "amazon prime"; "youtube";
     "movie"; "cinema"; "theater"; "entertainment"; "game"; "gaming";
     "steam"; "playstation"; "xbox"; "nintendo"; "gym"; "fitness"; "sport";
     "club"; "membership"; "subscription"; "music"; "concert"; "event";
     "ticket"; "recreation"; "hobby"]);
  ("transport",
    ["gas"; "fuel"; "petrol"; "shell"; "bp"; "exxon"; "chevron"; "uber";
     "lyft"; "taxi"; "bus"; "train"; "metro"; "subway"; "parking"; "toll";
     "car"; "vehicle"; "auto"; "transport"; "travel"; "flight"; "airline";
     "airport"; "rental"; "maintenance"; "repair"; "insurance"; "registration"]);
  ("utilities",
    ["electric"; "electricity"; "gas bill"; "water"; "sewer"; "internet";
     "wifi"; "phone"; "mobile"; "cellular"; "cable"; "tv"; "utility";
     "power"; "energy"; "heating"; "cooling"; "trash"; "waste"; "recycling";
     "telecom"; "broadband"; "service provider"; "bill payment";
     "monthly service"]);
  ("healthcare",
    ["doctor"; "hospital"; "medical"; "pharmacy"; "medicine"; "prescription";
     "health"; "dental"; "dentist"; "clinic"; "insurance"; "copay";
     "deductible"; "therapy"; "treatment"; "surgery"; "checkup";
     "appointment"; "lab"; "test"; "x-ray"; "mri"; "scan"; "emergency";
     "urgent care"; "specialist"]);
  ("transfer",
    ["transfer"; "atm"; "withdrawal"; "deposit"; "bank"; "check"; "payment";
     "wire"; "ach"; "direct deposit"; "payroll"; "salary"; "wage"; "income";
     "refund"; "reimbursement"; "cash"; "venmo"; "paypal"; "zelle";
     "cashapp"; "peer"; "p2p"; "send"; "receive"; "balance transfer";
     "loan payment"]);
  ("investment",
    ["stock"; "stocks"; "shares"; "etf"; "mutual fund"; "investment";
     "brokerage"; "robinhood"; "etrade"; "fidelity"; "vanguard"; "schwab";
     "buy stock"; "sell stock"; "dividend"; "portfolio"; "crypto"; "bitcoin";
     "coinbase"; "binance"; "investment account"; "security"; "securities";
     "fund"; "asset"; "wealth"; "capital gain"; "capital loss"; "acorns";
     "stash"; "public.com"; "m1 finance"]);
  ("subscription",
    ["subscription"; "netflix"; "spotify"; "hulu"; "disney+"; "google play";
     "airtel"; "amazon prime"; "apple music"; "youtube premium"; "adobe";
     "microsoft 365"; "dropbox"; "zoom"; "slack"; "patreon"; "onlyfans";
     "substack"; "newspaper"; "magazine"; "membership"; "recurring";
     "monthly fee"; "annual fee"; "prime"; "cloud"; "service fee";
     "auto-renew"; "renewal"; "subscription fee"; "streaming"])
 ].

(** The ten keys of [expenditureByCategory] and of [counts]. *)
Definition CATEGORY_IDS : list string :=
  ["food"; "shopping"; "leisure"; "transport"; "utilities"; "healthcare";
   "transfer"; "investment"; "subscription"; "unknown"].

(** ** Host functions *)

(** [toLowerCase s] is [s.toLowerCase()]; [getTime s] is
    [new Date(s).getTime()], a time value in milliseconds, [None] standing
    for the [NaN] of an invalid date.  Time values are integers of magnitude
    at most 8.64e15, so the sign of the difference of two of them computed in
    binary64 is the sign of their exact difference. *)
Class Host : Type := {
  toLowerCase : string -> string;
  getTime : string -> option Z
}.

(** ** Array.prototype.sort *)

(** The sort of an array is stable, and for a comparator that is a consistent
    order every conforming engine returns the same array.  It is modelled by
    the stable insertion sort: an element stays in front of the elements that
    followed it unless the comparator puts it after them. *)
Section ArraySort.
Variable A : Type.
(** [None]: the comparator returned [NaN]. *)
Variable comparefn : A -> A -> option Z.

(** A [NaN] result counts as [+0]. *)
Definition sortCompare (x y : A) : Z :=
  match comparefn x y with
  | Some v => v
  | None => 0%Z
  end.

Fixpoint insertSorted (x : A) (l : list A) : list A :=
  match l with
  | [] => [x]
  | y :: l' =>
      if (0 <? sortCompare x y)%Z then y :: insertSorted x l'
      else x :: y :: l'
  end.

Definition sort (l : list A) : list A := fold_right insertSorted [] l.
End ArraySort.

(** ** The analyzer *)

Section Analyzer.
Context {num : Type} {N : JSNumber num} {H : Host}.

Record RawTransaction : Type := {
  raw_date : string;
  raw_description : string;
  raw_type : string;
  raw_amount : num;
  raw_balance : option num
}.

Record Transaction : Type := {
  date : string;
  description : string;
  amount : num;
  type : string
}.

Record AnalysisData : Type := {
  initial_balance : num;
  final_balance : num;
  total_income : num;
  total_expenditure : num;
  expenditure_by_category : dict num;
  transaction_details : list Transaction
}.

(** The two nested loops over [Object.entries(CATEGORY_RULES)]: the first
    category one of whose keywords [desc] includes. *)
Fixpoint matchRules (desc : string) (rules : list (string * list string))
  : option string :=
  match rules with
  | [] => None
  | (category, keywords) :: rest =>
      if existsb (fun keyword => includes desc keyword) keywords
      then Some category
      else matchRules desc rest
  end.

Definition categorizeTransaction (description type : string) : string :=
  let desc := toLowerCase description in
  let transactionType := toLowerCase type in
  if includes transactionType "credit" ||
     includes transactionType "deposit" ||
     includes transactionType "income" ||
     includes transactionType "salary" ||
     includes transactionType "refund" ||
     includes transactionType "interest"
  then "transfer"
  else
    match matchRules desc CATEGORY_RULES with
    | Some category => category
    | None => "unknown"
    end.

(** The callback of [rawTransactions.map]. *)
Definition categorize (raw : RawTransaction) : Transaction :=
  {| date := raw_date raw;
     description := raw_description raw;
     amount := raw_amount raw;
     type := categorizeTransaction (raw_description raw) (raw_type raw) |}.

(** The comparator handed to [sort]. *)
Definition compareDates (a b : Transaction) : option Z :=
  match getTime (date a), getTime (date b) with
  | Some ta, Some tb => Some (ta - tb)%Z
  | _, _ => None
  end.

(** [o[k] += x]; [undefined + x] is [NaN]. *)
Definition plusAssign (k : string) (x : num) (o : dict num) : dict num :=
  update k (fun old => match old with
                       | Some v => add v x
                       | None => nan
                       end) o.

(** The three accumulators of the aggregation loop. *)
Record Totals : Type := {
  totalIncome : num;
  totalExpenditure : num;
  expenditureByCategory : dict num
}.

Definition initialTotals : Totals :=
  {| totalIncome := zero;
     totalExpenditure := zero;
     expenditureByCategory := map (fun k => (k, zero)) CATEGORY_IDS |}.

(** The callback of [transactions.forEach]. *)
Definition processTransaction (acc : Totals) (transaction : Transaction)
  : Totals :=
  if gt0 (amount transaction) then
    {| totalIncome := add (totalIncome acc) (amount transaction);
       totalExpenditure := totalExpenditure acc;
       expenditureByCategory := expenditureByCategory acc |}
  else
    {| totalIncome := totalIncome acc;
       totalExpenditure := add (totalExpenditure acc) (amount transaction);
       expenditureByCategory :=
         plusAssign (type transaction) (amount transaction)
                    (expenditureByCategory acc) |}.

(** [initialBalance] is [None] when the argument is omitted; its default
    is [0]. *)
Definition analyzeTransactions (rawTransactions : list RawTransaction)
    (initialBalance : option num) : AnalysisData :=
  let initialBalance :=
    match initialBalance with Some b => b | None => zero end in
  let transactions := sort compareDates (map categorize rawTransactions) in
  let acc := fold_left processTransaction transactions initialTotals in
  let finalBalance :=
    add (add initialBalance (totalIncome acc)) (totalExpenditure acc) in
  {| initial_balance := initialBalance;
     final_balance := finalBalance;
     total_income := totalIncome acc;
     total_expenditure := totalExpenditure acc;
     expenditure_by_category := expenditureByCategory acc;
     transaction_details := transactions |}.

(** [counts[k]++].  A counter is a whole number below 2^53, on which the
    increment is exact; [undefined] increments to [NaN]. *)
Definition increment (k : string) (counts : dict integral) : dict integral :=
  update k (fun old => match old with
                       | Some v => integral_add v (Int 1)
                       | None => NaN
                       end) counts.

Definition countTransaction (counts : dict integral)
    (transaction : Transaction) : dict integral :=
  if lt0 (amount transaction) then increment (type transaction) counts
  else counts.

Definition getTransactionCounts (transactions : list Transaction)
  : dict integral :=
  fold_left countTransaction transactions
            (map (fun k => (k, Int 0)) CATEGORY_IDS).

Definition getIncomeTransactionCount (transactions : list Transaction)
  : nat :=
  List.length (filter (fun t => gt0 (amount t)) transactions).

Definition getExpenditureTransactionCount (transactions : list Transaction)
  : nat :=
  List.length (filter (fun t => lt0 (amount t)) transactions).
End Analyzer.

Arguments RawTransaction num : clear implicits.
Arguments Transaction num : clear implicits.
Arguments AnalysisData num : clear implicits.
Arguments Totals num : clear implicits.

(** ** A host for concrete runs *)

Definition digit (c : ascii) : option Z :=
  let n := Z.of_nat (nat_of_ascii c) in
  if ((48 <=? n) && (n <=? 57))%Z then Some (n - 48)%Z else None.

Fixpoint digits (s : string) (acc : Z) : option Z :=
  match s with
  | EmptyString => Some acc
  | String c s' =>
      match digit c with
      | Some d => digits s' (10 * acc + d)%Z
      | None => None
      end
  end.

Definition isLeapYear (y : Z) : bool :=
  ((y mod 4 =? 0) && (negb (y mod 100 =? 0) || (y mod 400 =? 0)))%Z.

Definition daysInMonth (y m : Z) : Z :=
  if (m =? 2)%Z then (if isLeapYear y then 29 else 28)%Z
  else if ((m =? 4) || (m =? 6) || (m =? 9) || (m =? 11))%Z then 30%Z
  else 31%Z.

(** Days from 1970-01-01 to the day [y]-[m]-[d] of the proleptic Gregorian
    calendar. *)
Definition daysFromCivil (y m d : Z) : Z :=
  let y' := (if m <=? 2 then y - 1 else y)%Z in
  let era := (y' / 400)%Z in
  let yoe := (y' - era * 400)%Z in
  let mp := ((m + 9) mod 12)%Z in
  let doy := ((153 * mp + 2) / 5 + d - 1)%Z in
  let doe := (yoe * 365 + yoe / 4 - yoe / 100 + doy)%Z in
  (era * 146097 + doe - 719468)%Z.

(** The time value of a date-only ISO string [YYYY-MM-DD] (midnight UTC);
    anything else is taken as an invalid date. *)
Definition isoTime (s : string) : option Z :=
  if negb (Nat.eqb (String.length s) 10) then None
  else if negb (String.eqb (substring 4 1 s) "-") then None
  else if negb (String.eqb (substring 7 1 s) "-") then None
  else
    match digits (substring 0 4 s) 0, digits (substring 5 2 s) 0,
          digits (substring 8 2 s) 0 with
    | Some y, Some m, Some d =>
        if ((1 <=? m) && (m <=? 12) && (1 <=? d) && (d <=? daysInMonth y m))%Z
        then Some (daysFromCivil y m d * 86400000)%Z
        else None
    | _, _, _ => None
    end.

(** ASCII text and ISO calendar dates. *)
Definition AsciiIsoHost : Host :=
  {| toLowerCase := asciiLower; getTime := isoTime |}.

(** ** The shape guard of the extraction route *)

Section ShapeGuard.
Context {num : Type}.

(** The values [JSON.parse] returns, and [undefined]. *)
Inductive jsvalue : Type :=
  | JUndefined
  | JNull
  | JBoolean (b : bool)
  | JNumber (x : num)
  | JString (s : string)
  | JArray (items : list jsvalue)
  | JObject (fields : list (string * jsvalue)).

Definition typeof (v : jsvalue) : string :=
  match v with
  | JUndefined => "undefined"
  | JNull => "object"
  | JBoolean _ => "boolean"
  | JNumber _ => "number"
  | JString _ => "string"
  | JArray _ => "object"
  | JObject _ => "object"
  end.

(** [v === null] *)
Definition isNull (v : jsvalue) : bool :=
  match v with JNull => true | _ => false end.

(** [v === undefined] *)
Definition isUndefined (v : jsvalue) : bool :=
  match v with JUndefined => true | _ => false end.

(** [Array.isArray(v)] *)
Definition isArray (v : jsvalue) : bool :=
  match v with JArray _ => true | _ => false end.

(** [v.k] for the property names the guard reads, none of which is an
    index or [length]: a missing property reads as [undefined]. *)
Definition getProp (v : jsvalue) (k : string) : jsvalue :=
  match v with
  | JObject fields =>
      match lookup k fields with
      | Some x => x
      | None => JUndefined
      end
  | _ => JUndefined
  end.

Definition isValidTransaction (transaction : jsvalue) : bool :=
  String.eqb (typeof transaction) "object" &&
  negb (isNull transaction) &&
  String.eqb (typeof (getProp transaction "date")) "string" &&
  String.eqb (typeof (getProp transaction "description")) "string" &&
  String.eqb (typeof (getProp transaction "amount")) "number" &&
  String.eqb (typeof (getProp transaction "type")) "string".

(** The elements [every] visits. *)
Definition elements (v : jsvalue) : list jsvalue :=
  match v with
  | JArray items => items
  | _ => []
  end.

Definition isValidExtractedPageData (data : jsvalue) : bool :=
  if negb (String.eqb (typeof data) "object") || isNull data then false
  else
    let pageData := data in
    if negb (isArray (getProp pageData "transactions")) then false
    else
      let allTransactionsValid :=
        forallb isValidTransaction
                (elements (getProp pageData "transactions")) in
      if negb allTransactionsValid then false
      else if negb (isUndefined (getProp pageData "initial_balance")) &&
              negb (String.eqb
                      (typeof (getProp pageData "initial_balance")) "number")
      then false
      else true.

(** *** The contract, in the specification's words *)

(** The field [k] of a record holds [v]. *)
Definition HasField (fields : list (string * jsvalue)) (k : string)
    (v : jsvalue) : Prop :=
  lookup k fields = Some v.

(** A non-null record with a text date, a text description, a numeric
    amount and a text type. *)
Definition TransactionShaped (v : jsvalue) : Prop :=
  exists fields d s a t,
    v = JObject fields /\
    HasField fields "date" (JString d) /\
    HasField fields "description" (JString s) /\
    HasField fields "amount" (JNumber a) /\
    HasField fields "type" (JString t).

(** A non-null record whose [transactions] field is a sequence of
    transaction-shaped records and whose [initial_balance] field, when
    present (that is, when it holds a value other than [undefined]), is
    numeric. *)
Definition PageShaped (v : jsvalue) : Prop :=
  exists fields items,
    v = JObject fields /\
    HasField fields "transactions" (JArray items) /\
    Forall TransactionShaped items /\
    (forall b, HasField fields "initial_balance" b -> b <> JUndefined ->
               exists x, b = JNumber x).
End ShapeGuard.

Arguments jsvalue num : clear implicits.

(** ** The classifier's contract, in the specification's words *)

(** The substrings of a type hint that mark an income. *)
Definition INCOME_HINTS : list string :=
  ["credit"; "deposit"; "income"; "salary"; "refund"; "interest"].

(** One of [keywords] occurs in [desc]. *)
Definition Matches (desc : string) (keywords : list string) : Prop :=
  exists keyword, In keyword keywords /\ Substring keyword desc.

(** The lower-cased type hint contains an income substring. *)
Definition IncomeHinted {H : Host} (type : string) : Prop :=
  exists hint, In hint INCOME_HINTS /\ Substring hint (toLowerCase type).

(** ** The sort's contract *)

Section SortContract.
Variable A : Type.
Variable comparefn : A -> A -> option Z.
(** The sort key the comparator orders by. *)
Variable key : A -> Z.

(** On the elements of [l] the comparator is the difference of keys. *)
Definition ComparesKeys (l : list A) : Prop :=
  forall x y, In x l -> In y l -> comparefn x y = Some (key x - key y)%Z.

(** [x] has the key [k]. *)
Definition hasKey (k : Z) (x : A) : bool := (key x =? k)%Z.
End SortContract.

(** ** The analyzer's contract, in the specification's words *)

Section AnalyzerContract.
Context {num : Type} {N : JSNumber num} {H : Host}.

(** Every date of the input parses as a calendar date. *)
Definition DatesParse (raws : list (RawTransaction num)) : Prop :=
  Forall (fun raw => getTime (raw_date raw) <> None) raws.

(** The parsed date of [a] is not later than the parsed date of [b]. *)
Definition NotLater (a b : Transaction num) : Prop :=
  exists ta tb,
    getTime (date a) = Some ta /\ getTime (date b) = Some tb /\
    (ta <= tb)%Z.

(** The parsed date of [t] is [d]. *)
Definition onDate (d : Z) (t : Transaction num) : bool :=
  match getTime (date t) with
  | Some v => (v =? d)%Z
  | None => false
  end.

(** The sort key of a transaction whose date parses. *)
Definition timeOf (t : Transaction num) : Z :=
  match getTime (date t) with
  | Some v => v
  | None => 0%Z
  end.

(** The sum of the values of a dictionary, in enumeration order, from 0. *)
Definition sumValues (o : dict num) : num :=
  fold_left add (values o) zero.

(** The accumulators a summary was built from. *)
Definition totalsOf (s : AnalysisData num) : Totals num :=
  {| totalIncome := total_income s;
     totalExpenditure := total_expenditure s;
     expenditureByCategory := expenditure_by_category s |}.
End AnalyzerContract.

(** ** Statements for concrete runs *)

Definition raw {num : Type} (d s t : string) (a : num) : RawTransaction num :=
  {| raw_date := d; raw_description := s; raw_type := t; raw_amount := a;
     raw_balance := None |}.

(** A statement on which the roundings of binary64 show: three debits of
    0.1, 0.2 and 0.3, the first on food and the other two on shopping. *)
Definition roundingStatement : list (RawTransaction float) :=
  [ raw "2024-01-01" "Coffee" "debit" (-0.1)%float;
    raw "2024-01-02" "Amazon" "debit" (-0.2)%float;
    raw "2024-01-03" "Walmart" "debit" (-0.3)%float ].

(** A statement given out of order, with two transactions on 2024-01-01. *)
Definition shuffledStatement : list (RawTransaction float) :=
  [ raw "2024-01-03" "Netflix subscription" "debit" (-15.99)%float;
    raw "2024-01-01" "Uber trip" "debit" (-12)%float;
    raw "2024-01-02" "Payroll Deposit" "credit" 2000%float;
    raw "2024-01-01" "Starbucks Coffee" "debit" (-4.5)%float ].

(** The debits of [roundingStatement], counted in cents. *)
Definition centsStatement : list (RawTransaction float) :=
  [ raw "2024-01-01" "Coffee" "debit" (-10)%float;
    raw "2024-01-02" "Amazon" "debit" (-20)%float;
    raw "2024-01-03" "Walmart" "debit" (-30)%float ].

Definition zeroTransaction : Transaction float :=
  {| date := "2024-01-01"; description := "Fee waiver"; amount := 0%float;
     type := "unknown" |}.

(** ** Views of a transaction sequence *)

Section TransactionViews.
Context {num : Type} {N : JSNumber num}.

(** [t] takes the income branch of the aggregation loop. *)
Definition takesIncomeBranch (t : Transaction num) : bool := gt0 (amount t).

(** [t] takes the expenditure branch of the aggregation loop. *)
Definition takesExpenditureBranch (t : Transaction num) : bool :=
  negb (gt0 (amount t)).

(** [t] is counted by [getTransactionCounts]. *)
Definition isCounted (t : Transaction num) : bool := lt0 (amount t).

(** [t] carries the category [c]. *)
Definition hasType (c : string) (t : Transaction num) : bool :=
  String.eqb (type t) c.

(** The amounts of [l] added up from 0, from left to right. *)
Definition sumAmounts (l : list (Transaction num)) : num :=
  fold_left add (map amount l) zero.
End TransactionViews.

(** ** Amounts that add up without rounding *)

(** The sum of [g] over the elements of [l]. *)
Definition sumBy (A : Type) (g : A -> Z) (l : list A) : Z :=
  fold_right (fun x s => (g x + s)%Z) 0%Z l.

Section ExactAddition.
Context {num : Type} {N : JSNumber num}.

(** [count] reads a number as a whole count of some unit of account (a
    cent, say): [count x = Some z] when [x] is the number that stands for
    [z] units, [None] when [x] is no whole count. *)
Variable count : num -> option Z.
Variable bound : Z.

Definition units (x : num) : Z :=
  match count x with
  | Some z => z
  | None => 0%Z
  end.

(** Up to [bound] units the addition does not round: 0 stands for no unit,
    no count has two numbers, and the sum of the numbers of [a] and of [b]
    units is the number of [a + b] units when |a| + |b| is within the
    bound. *)
Definition ExactUpTo : Prop :=
  count zero = Some 0%Z /\
  (forall x y z, count x = Some z -> count y = Some z -> x = y) /\
  (forall x y a b,
      count x = Some a -> count y = Some b ->
      (Z.abs a + Z.abs b <= bound)%Z ->
      count (add x y) = Some (a + b)%Z).

(** The units of the numbers of [l], in absolute value, added up. *)
Definition weight (l : list num) : Z :=
  sumBy (fun x => Z.abs (units x)) l.

(** The numbers of [l] are whole counts whose absolute values add up to no
    more than the bound. *)
Definition CountedWithin (l : list num) : Prop :=
  Forall (fun x => count x <> None) l /\ (weight l <= bound)%Z.
End ExactAddition.

Section Amounts.
Context {num : Type} {N : JSNumber num}.


(** The amounts that take its expenditure branch. *)
Definition expenditureAmounts (raws : list (RawTransaction num)) : list num :=
  map (@raw_amount num) (filter (fun r => negb (gt0 (raw_amount r))) raws).
End Amounts.

(** *** Whole numbers in binary64 *)

(** The binary64 number of a whole number, built from its binary digits. *)
Fixpoint positiveFloat (p : positive) : float :=
  match p with
  | xH => 1%float
  | xO q => (2 * positiveFloat q)%float
  | xI q => (2 * positiveFloat q + 1)%float
  end.

Definition wholeFloat (z : Z) : float :=
  match z with
  | Z0 => 0%float
  | Zpos p => positiveFloat p
  | Zneg p => (- positiveFloat p)%float
  end.

(** The whole numbers from [-k] to [k], each with its binary64 number. *)
Definition wholeTable (k : nat) : list (float * Z) :=
  map (fun n => let z := (Z.of_nat n - Z.of_nat k)%Z in (wholeFloat z, z))
      (seq 0 (2 * k + 1)).

(** The count a table gives to [x]: that of the first entry whose number is
    [x], bit for bit. *)
Fixpoint countIn (table : list (float * Z)) (x : float) : option Z :=
  match table with
  | [] => None
  | (y, z) :: rest =>
      if PrimFloat.Leibniz.eqb x y then Some z else countIn rest x
  end.

Definition sameCount (a b : option Z) : bool :=
  match a, b with
  | Some x, Some y => (x =? y)%Z
  | None, None => true
  | _, _ => false
  end.

(** The check, entry by entry, that binary64 addition does not round on the
    numbers of a table up to [bound]. *)
Definition certifies (table : list (float * Z)) (bound : Z) : bool :=
  sameCount (countIn table 0%float) (Some 0%Z) &&
  forallb (fun p =>
    forallb (fun q =>
      (if (snd p =? snd q)%Z
       then PrimFloat.Leibniz.eqb (fst p) (fst q) else true) &&
      (if (Z.abs (snd p) + Z.abs (snd q) <=? bound)%Z
       then sameCount (countIn table (fst p + fst q)%float)
                      (Some (snd p + snd q)%Z)
       else true)) table) table.

(** Whole amounts of at most 100 units. *)
Definition wholeUnits : float -> option Z := countIn (wholeTable 100).

(** ** The extraction route *)

(** [s.replace(/pat/g, "")] for a literal, non-empty pattern: the matches
    are found from left to right and do not overlap; [skip] counts the
    characters of the current match still to drop. *)
Fixpoint removeAllFrom (pat : string) (skip : nat) (s : string) : string :=
  match s with
  | EmptyString => EmptyString
  | String c s' =>
      match skip with
      | S n => removeAllFrom pat n s'
      | O =>
          if String.prefix pat s
          then removeAllFrom pat (String.length pat - 1) s'
          else String c (removeAllFrom pat 0 s')
      end
  end.

Definition removeAll (pat s : string) : string := removeAllFrom pat 0 s.

(** The two [replace] calls that drop the code fences of a page. *)
Definition stripFences (s : string) : string :=
  removeAll "```" (removeAll "```json" s).

(** What a call of the vision model comes to: it throws, or it answers with
    a content that may be missing. *)
Inductive completion : Type :=
  | Threw
  | Answered (content : option string).

(** The outcome of the route: an error with its status, or the extraction
    with status 200. *)
Inductive RouteResponse (num : Type) : Type :=
  | ErrorResponse (status : Z) (error : string)
  | ExtractionResponse (initial_balance : jsvalue num)
                       (transactions : list (jsvalue num)).

Arguments ErrorResponse {num} status error.
Arguments ExtractionResponse {num} initial_balance transactions.

(** The host of the route: [trim s] is [s.trim()], [parseJSON s] is
    [JSON.parse(s)] with [None] for a thrown [SyntaxError], and
    [complete i image] is the [i]-th call of the vision model. *)
Class RouteHost (num : Type) : Type := {
  trim : string -> string;
  parseJSON : string -> option (jsvalue num);
  complete : nat -> string -> completion
}.

Section ExtractionRoute.
Context {num : Type} {N : JSNumber num} {R : RouteHost num}.

(** [!x] on a number: true of [0], [-0] and [NaN], the numbers that are
    neither negative nor positive. *)
Definition falsyNumber (x : num) : bool := negb (lt0 x || gt0 x).

(** [!v] *)
Definition falsy (v : jsvalue num) : bool :=
  match v with
  | JUndefined => true
  | JNull => true
  | JBoolean b => negb b
  | JNumber x => falsyNumber x
  | JString s => String.eqb s ""
  | JArray _ => false
  | JObject _ => false
  end.

(** [k in v] for a name [k] that is neither an index, [length] nor a
    property of [Object.prototype]. *)
Definition hasProperty (k : string) (v : jsvalue num) : bool :=
  match v with
  | JObject fields => existsb (fun field => String.eqb k (fst field)) fields
  | _ => false
  end.

(** The checks of the request body: the message of the 400 response, or
    the images. *)
Definition requestImages (body : jsvalue num)
  : string + list (jsvalue num) :=
  if falsy body || negb (String.eqb (typeof body) "object") ||
     negb (hasProperty "images" body)
  then inl "No images provided"
  else
    let images := getProp body "images" in
    if negb (isArray images) || Nat.eqb (List.length (elements images)) 0
    then inl "No images provided"
    else if negb (forallb (fun img => String.eqb (typeof img) "string")
                          (elements images))
    then inl "All images must be base64 strings"
    else inr (elements images).

(** The text of an image that passed the checks. *)
Definition imageText (v : jsvalue num) : string :=
  match v with
  | JString s => s
  | _ => ""
  end.

(** The first loop: one call per image, from image [i] on; a content that
    is missing or empty is not kept.  [None]: a call threw. *)
Fixpoint extractPages (i : nat) (images : list string)
    (extractedData : list string) : option (list string) :=
  match images with
  | [] => Some extractedData
  | base64Image :: rest =>
      match complete i base64Image with
      | Threw => None
      | Answered pageResult =>
          extractPages (S i) rest
            (match pageResult with
             | Some text =>
                 if String.eqb text "" then extractedData
                 else (extractedData ++ [text])%list
             | None => extractedData
             end)
      end
  end.

(** [JSON.parse] of the cleaned text of a page. *)
Definition parsePage (pageData : string) : option (jsvalue num) :=
  parseJSON (stripFences (trim pageData)).

(** The body of the second loop, for the page of index [i]. *)
Definition combinePage (i : nat) (pageData : string)
    (state : jsvalue num * list (jsvalue num))
  : jsvalue num * list (jsvalue num) :=
  let (initialBalance, allTransactions) := state in
  match parsePage pageData with
  | None => (initialBalance, allTransactions)
  | Some parsedData =>
      if negb (isValidExtractedPageData parsedData)
      then (initialBalance, allTransactions)
      else
        let pageResult := parsedData in
        ((if Nat.eqb i 0 &&
             negb (isUndefined (getProp pageResult "initial_balance"))
          then getProp pageResult "initial_balance"
          else initialBalance),
         (allTransactions ++ elements (getProp pageResult "transactions"))
           %list)
  end.

Fixpoint combinePagesFrom (i : nat) (extractedData : list string)
    (state : jsvalue num * list (jsvalue num))
  : jsvalue num * list (jsvalue num) :=
  match extractedData with
  | [] => state
  | pageData :: rest =>
      combinePagesFrom (S i) rest (combinePage i pageData state)
  end.

(** The second loop, from [initialBalance = null] and no transaction. *)
Definition combinePages (extractedData : list string)
  : jsvalue num * list (jsvalue num) :=
  combinePagesFrom 0 extractedData (JNull, []).

(** The route; [body] is [None] when reading the request throws.  The
    pauses between calls and the forwarding of the result to the store,
    whose failure is caught, leave the response as it is. *)
Definition POST (body : option (jsvalue num)) : RouteResponse num :=
  match body with
  | None => ErrorResponse 500 "Failed to extract transaction data"
  | Some body =>
      match requestImages body with
      | inl error => ErrorResponse 400 error
      | inr images =>
          match extractPages 0 (map imageText images) [] with
          | None => ErrorResponse 500 "Failed to extract transaction data"
          | Some extractedData =>
              let (initialBalance, allTransactions) :=
                combinePages extractedData in
              ExtractionResponse initialBalance allTransactions
          end
      end
  end.

(** *** The route's contract *)

(** The answers of the model to the images, the first call being the
    [i]-th. *)
Fixpoint answers (i : nat) (images : list string) : list completion :=
  match images with
  | [] => []
  | image :: rest => complete i image :: answers (S i) rest
  end.

Definition threw (c : completion) : bool :=
  match c with
  | Threw => true
  | Answered _ => false
  end.

(** The page an answer gives: its content, unless missing or empty. *)
Definition keptPage (c : completion) : list string :=
  match c with
  | Answered (Some text) => if String.eqb text "" then [] else [text]
  | _ => []
  end.

(** The request the route serves: a record whose [images] field is a
    non-empty sequence of texts. *)
Definition RequestShaped (body : jsvalue num) (images : list (jsvalue num))
  : Prop :=
  exists fields,
    body = JObject fields /\
    HasField fields "images" (JArray images) /\
    images <> [] /\
    Forall (fun img => exists s, img = JString s) images.

(** The transactions a page contributes: those of its parsed text when it
    parses and passes the guard, none otherwise. *)
Definition pageTransactions (pageData : string) : list (jsvalue num) :=
  match parsePage pageData with
  | Some parsedData =>
      if isValidExtractedPageData parsedData
      then elements (getProp parsedData "transactions")
      else []
  | None => []
  end.

(** The page is skipped: its text does not parse, or fails the guard. *)
Definition Malformed (pageData : string) : Prop :=
  match parsePage pageData with
  | Some parsedData => isValidExtractedPageData parsedData = false
  | None => True
  end.
End ExtractionRoute.

(** ** A route host for concrete runs *)

(** Two well-formed pages and their texts, the second one fenced. *)
Definition firstPage : jsvalue float :=
  JObject
    [("initial_balance", JNumber 100%float);
     ("transactions",
      JArray
        [JObject [("date", JString "2024-01-05");
                  ("description", JString "Starbucks Coffee");
                  ("type", JString "debit");
                  ("amount", JNumber (-4.5)%float)]])].

Definition secondPage : jsvalue float :=
  JObject
    [("initial_balance", JNumber 7%float);
     ("transactions",
      JArray
        [JObject [("date", JString "2024-01-09");
                  ("description", JString "Payroll Deposit");
                  ("type", JString "credit");
                  ("amount", JNumber 2000%float);
                  ("balance", JNumber 2095.5%float)]])].

(** A host whose parser knows the texts "page one" and "page two", whose
    [trim] drops nothing and whose model answers every call with the fenced
    "page two". *)
Definition sampleRouteHost : RouteHost float :=
  {| trim := fun s => s;
     parseJSON := fun s =>
       if String.eqb s "page one" then Some firstPage
       else if String.eqb s "page two" then Some secondPage
       else None;
     complete := fun _ _ => Answered (Some "```jsonpage two```") |}.

(** ** The upload component: from the extraction to the analysis *)

(** A value of type [number | null | undefined]. *)
Inductive optionalNumber (num : Type) : Type :=
  | Absent
  | Null
  | Present (x : num).

Arguments Absent {num}.
Arguments Null {num}.
Arguments Present {num} x.

Section Upload.
Context {num : Type} {N : JSNumber num} {H : Host}.

(** [initial_balance || 0] *)
Definition orZero (initial_balance : optionalNumber num) : num :=
  match initial_balance with
  | Present x => if falsyNumber x then zero else x
  | Null => zero
  | Absent => zero
  end.

(** The end of [processFile], from the parsed response of the route on:
    the message of the error thrown, or the analysis handed to the
    dashboard.  [transactions] is [None] when the response carries none. *)
Definition analyzeExtraction
    (transactions : option (list (RawTransaction num)))
    (initial_balance : optionalNumber num) : string + AnalysisData num :=
  match transactions with
  | None =>
      inl "No transactions found in the PDF. Please ensure it's a valid bank statement."
  | Some transactions =>
      if Nat.eqb (List.length transactions) 0
      then inl "No transactions found in the PDF. Please ensure it's a valid bank statement."
      else inr (analyzeTransactions transactions
                                    (Some (orZero initial_balance)))
  end.
End Upload.

(** ** The page: upload view or dashboard *)

Section Page.
Context {num : Type}.

Record PageState : Type := {
  analysisData : option (AnalysisData num);
  showUpload : bool
}.

Definition initialPageState : PageState :=
  {| analysisData := None; showUpload := true |}.

Inductive PageEvent : Type :=
  | AnalysisComplete (data : AnalysisData num)
  | NewUpload.

(** [handleAnalysisComplete] and [handleNewUpload]. *)
Definition handlePageEvent (s : PageState) (e : PageEvent) : PageState :=
  match e with
  | AnalysisComplete data =>
      {| analysisData := Some data; showUpload := false |}
  | NewUpload => {| analysisData := None; showUpload := true |}
  end.

(** What the page renders: [None] for the upload view, the data of the
    dashboard otherwise. *)
Definition rendered (s : PageState) : option (AnalysisData num) :=
  match analysisData s with
  | Some data => if showUpload s then None else Some data
  | None => None
  end.

(** The data of the last event, when it is a completed analysis. *)
Definition lastAnalysis (events : list PageEvent)
  : option (AnalysisData num) :=
  match rev events with
  | AnalysisComplete data :: _ => Some data
  | _ => None
  end.
End Page.

Arguments PageState num : clear implicits.
Arguments PageEvent num : clear implicits.

(** ** The transaction table and the category chart *)

(** The host of the charts: [abs x] is [Math.abs(x)] and [toUpperCase s] is
    [s.toUpperCase()]. *)
Class ChartHost (num : Type) : Type := {
  abs : num -> num;
  toUpperCase : string -> string
}.

(** [Math.abs] of binary64 and ASCII upper-casing. *)
Definition asciiUpperChar (c : ascii) : ascii :=
  let n := nat_of_ascii c in
  if (97 <=? n)%nat && (n <=? 122)%nat then ascii_of_nat (n - 32) else c.

Fixpoint asciiUpper (s : string) : string :=
  match s with
  | EmptyString => EmptyString
  | String c s' => String (asciiUpperChar c) (asciiUpper s')
  end.

Definition FloatChartHost : ChartHost float :=
  {| abs := PrimFloat.abs; toUpperCase := asciiUpper |}.

Definition integral_abs (x : integral) : integral :=
  match x with
  | Int z => Int (Z.abs z)
  | NaN => NaN
  end.

Definition IntegralChartHost : ChartHost integral :=
  {| abs := integral_abs; toUpperCase := asciiUpper |}.

Section Presentation.
Context {num : Type} {N : JSNumber num} {H : Host} {C : ChartHost num}.

(** The filter of the transaction table. *)
Definition filteredTransactions (searchTerm : string)
    (categoryFilter : option string) (data : AnalysisData num)
  : list (Transaction num) :=
  filter
    (fun transaction =>
       let matchesSearch :=
         includes (toLowerCase (description transaction))
                  (toLowerCase searchTerm) ||
         includes (toLowerCase (type transaction))
                  (toLowerCase searchTerm) in
       let matchesCategory :=
         match categoryFilter with
         | None => true
         | Some category => String.eqb (type transaction) category
         end in
       matchesSearch && matchesCategory)
    (transaction_details data).

(** [category.charAt(0).toUpperCase() + category.slice(1)] *)
Definition capitalize (category : string) : string :=
  match category with
  | EmptyString => toUpperCase EmptyString
  | String c rest => toUpperCase (String c EmptyString) ++ rest
  end.

Record ChartRow : Type := {
  row_category : string;
  row_amount : num;
  row_count : integral
}.

(** [transactionCounts[category] || 0], for a category that is no property
    name of [Object.prototype]. *)
Definition countOrZero (count : option integral) : integral :=
  match count with
  | Some (Int z) => if (z =? 0)%Z then Int 0 else Int z
  | Some NaN => Int 0
  | None => Int 0
  end.

(** The callback of [map] in the chart. *)
Definition chartRow (transactionCounts : dict integral)
    (entry : string * num) : ChartRow :=
  let (category, amount) := entry in
  {| row_category := capitalize category;
     row_amount := abs amount;
     row_count := countOrZero (lookup category transactionCounts) |}.

(** The callback of [filter] in the chart. *)
Definition hasData (item : ChartRow) : bool :=
  gt0 (row_amount item) || integral_gt0 (row_count item).

(** [chartData] of the bar chart. *)
Definition chartData (data : AnalysisData num) : list ChartRow :=
  let transactionCounts := getTransactionCounts (transaction_details data) in
  filter hasData
         (map (chartRow transactionCounts) (expenditure_by_category data)).
End Presentation.

Arguments ChartRow num : clear implicits.

(** ** The sharpening filter of the upload component *)

(** The pixels of an [ImageData] are the elements of a [Uint8ClampedArray],
    four per pixel, row after row; an element is a whole number from 0 to
    255.  Reading outside the array gives [undefined] and turns the sum into
    [NaN], written [None]; storing [NaN] stores 0; writing outside the array
    does nothing. *)
Definition kernel : list Z := [0; -1; 0; -1; 5; -1; 0; -1; 0]%Z.

(** [data[i] = v] *)
Fixpoint setAt (i : nat) (v : Z) (data : list Z) : list Z :=
  match data, i with
  | [], _ => []
  | _ :: rest, O => v :: rest
  | p :: rest, S i' => p :: setAt i' v rest
  end.

(** [sum += kernel[k] * copy[j]] *)
Definition addTerm (sum : option Z) (k : nat) (copy : list Z) (j : nat)
  : option Z :=
  match sum, nth_error kernel k, nth_error copy j with
  | Some s, Some weight, Some p => Some (s + weight * p)%Z
  | _, _, _ => None
  end.

(** [Math.min(255, Math.max(0, sum))], as the array stores it. *)
Definition clampStore (sum : option Z) : Z :=
  match sum with
  | Some s => Z.min 255 (Z.max 0 s)
  | None => 0%Z
  end.

(** The sum of the innermost loop body, for the channel [c] of the pixel
    in column [x] of row [y]. *)
Definition convolve (w : nat) (copy : list Z) (y x c : nat) : option Z :=
  let sum := Some 0%Z in
  let sum := addTerm sum 0 copy (((y - 1) * w + (x - 1)) * 4 + c) in
  let sum := addTerm sum 1 copy (((y - 1) * w + x) * 4 + c) in
  let sum := addTerm sum 2 copy (((y - 1) * w + (x + 1)) * 4 + c) in
  let sum := addTerm sum 3 copy ((y * w + (x - 1)) * 4 + c) in
  let sum := addTerm sum 4 copy ((y * w + x) * 4 + c) in
  let sum := addTerm sum 5 copy ((y * w + (x + 1)) * 4 + c) in
  let sum := addTerm sum 6 copy (((y + 1) * w + (x - 1)) * 4 + c) in
  let sum := addTerm sum 7 copy (((y + 1) * w + x) * 4 + c) in
  let sum := addTerm sum 8 copy (((y + 1) * w + (x + 1)) * 4 + c) in
  sum.

(** The innermost loop body. *)
Definition sharpenChannel (w : nat) (copy : list Z) (y x c : nat)
    (data : list Z) : list Z :=
  let i := (y * w + x) * 4 + c in
  setAt i (clampStore (convolve w copy y x c)) data.

(** The three loops, over the rows [1 .. h - 2], the columns [1 .. w - 2]
    and the channels [0 .. 2], reading from a copy of the pixels. *)
Definition sharpen (w h : nat) (data : list Z) : list Z :=
  let copy := data in
  fold_left
    (fun data y =>
       fold_left
         (fun data x =>
            fold_left (fun data c => sharpenChannel w copy y x c data)
                      (seq 0 3) data)
         (seq 1 (w - 2)) data)
    (seq 1 (h - 2)) data.

(** An element of a [Uint8ClampedArray]. *)
Definition isByte (z : Z) : Prop := (0 <= z <= 255)%Z.

(** The element of index [i], 0 outside the array. *)
Definition pixelAt (data : list Z) (i : nat) : Z := nth i data 0%Z.

(** The writes of the three loops, in order: index and value. *)
Definition sharpenWrites (w h : nat) (copy : list Z) : list (nat * Z) :=
  flat_map
    (fun y =>
       flat_map
         (fun x =>
            map (fun c => ((y * w + x) * 4 + c,
                           clampStore (convolve w copy y x c)))
                (seq 0 3))
         (seq 1 (w - 2)))
    (seq 1 (h - 2)).

(** * Properties *)

(** ** Numbers *)

(** In binary64, adding 0 changes no value but the negative zero. *)
Lemma Float64_add_zero (x : float) :
  x <> (-0)%float -> add x zero = x.
Proof.
  intros Hx. apply Prim2SF_inj. cbn [add zero Float64]. rewrite add_spec.
  change (Prim2SF 0%float) with (S754_zero false).
  unfold SF64add, SFadd.
  destruct (Prim2SF x) as [[|]| | |] eqn:E; trivial.
  exfalso. apply Hx. rewrite <- (SF2Prim_Prim2SF x), E. reflexivity.
Qed.

(** ** Substring test *)

Lemma prefix_app (sub s : string) :
  String.prefix sub s = true <-> exists after, s = sub ++ after.
Proof.
  revert s. induction sub as [|c sub IH]; intros [|d s]; simpl.
  - split; [intros _; now exists "" | reflexivity].
  - split; [intros _; now exists (String d s) | reflexivity].
  - split; [discriminate | intros [after E]; discriminate E].
  - destruct (ascii_dec c d) as [->|ne].
    + rewrite IH. split; intros [after E]; exists after.
      * now rewrite E.
      * now injection E.
    + split; [discriminate | intros [after E]; injection E; congruence].
Qed.

Lemma includes_empty (sub : string) :
  includes "" sub = String.prefix sub "".
Proof. apply orb_false_r. Qed.

Lemma includes_String (c : ascii) (s sub : string) :
  includes (String c s) sub = String.prefix sub (String c s) || includes s sub.
Proof. reflexivity. Qed.

Lemma includes_spec (s sub : string) :
  includes s sub = true <-> Substring sub s.
Proof.
  unfold Substring. induction s as [|c s IH].
  - rewrite includes_empty, prefix_app. split.
    + intros [after E]. now exists "", after.
    + intros [[|b before] [after E]]; [now exists after | discriminate E].
  - rewrite includes_String, orb_true_iff, prefix_app, IH. split.
    + intros [[after E] | (before & after & E)].
      * now exists "", after.
      * exists (String c before), after. simpl. now rewrite E.
    + intros [[|b before] [after E]].
      * left. now exists after.
      * right. exists before, after. simpl in E. now injection E.
Qed.

Lemma existsb_includes (desc : string) (keywords : list string) :
  existsb (fun keyword => includes desc keyword) keywords = true <->
  Matches desc keywords.
Proof.
  unfold Matches. rewrite existsb_exists.
  split; intros (k & Hin & Hk); exists k; split; trivial;
    now apply includes_spec.
Qed.

Lemma existsb_includes_false (desc : string) (keywords : list string) :
  existsb (fun keyword => includes desc keyword) keywords = false <->
  ~ Matches desc keywords.
Proof.
  rewrite <- existsb_includes.
  destruct (existsb _ keywords); split; congruence.
Qed.

Lemma NoDup_app_disjoint (A : Type) (l1 l2 : list A) (x : A) :
  NoDup (l1 ++ l2) -> In x l1 -> In x l2 -> False.
Proof.
  induction l1 as [|a l1 IH]; simpl; [tauto|].
  intros Hnd [-> | Hin] Hin2; inversion_clear Hnd as [|? ? Hnot Hnd'].
  - apply Hnot, in_or_app. now right.
  - now apply IH.
Qed.

(** ** Classifier *)

Section ClassifierFacts.
Context {H : Host}.

Lemma income_test (type : string) :
  existsb (fun hint => includes (toLowerCase type) hint) INCOME_HINTS = true
  <-> IncomeHinted type.
Proof. apply existsb_includes. Qed.

Lemma income_test_false (type : string) :
  existsb (fun hint => includes (toLowerCase type) hint) INCOME_HINTS = false
  <-> ~ IncomeHinted type.
Proof. apply existsb_includes_false. Qed.

(** The condition of the [if] is the test of the six hints. *)
Lemma categorizeTransaction_unfold (description type : string) :
  categorizeTransaction description type =
  if existsb (fun hint => includes (toLowerCase type) hint) INCOME_HINTS
  then "transfer"
  else match matchRules (toLowerCase description) CATEGORY_RULES with
       | Some category => category
       | None => "unknown"
       end.
Proof.
  unfold categorizeTransaction, INCOME_HINTS, existsb.
  now rewrite orb_false_r, !orb_assoc.
Qed.

Lemma matchRules_first (desc : string) earlier category keywords later :
  Forall (fun rule => ~ Matches desc (snd rule)) earlier ->
  Matches desc keywords ->
  matchRules desc (earlier ++ (category, keywords) :: later) = Some category.
Proof.
  intros Hearlier Hm. induction Hearlier as [|[c ks] earlier Hc _ IH]; simpl.
  - apply existsb_includes in Hm. now rewrite Hm.
  - apply existsb_includes_false in Hc. simpl in Hc. now rewrite Hc.
Qed.

Lemma matchRules_none (desc : string) rules :
  Forall (fun rule => ~ Matches desc (snd rule)) rules ->
  matchRules desc rules = None.
Proof.
  induction 1 as [|[c ks] rules Hc _ IH]; simpl; trivial.
  apply existsb_includes_false in Hc. simpl in Hc. now rewrite Hc.
Qed.

Lemma matchRules_key (desc : string) rules category :
  matchRules desc rules = Some category -> In category (keys rules).
Proof.
  induction rules as [|[c ks] rules IH]; simpl; [discriminate|].
  destruct (existsb _ ks).
  - intros [= ->]. now left.
  - intros E. right. now apply IH.
Qed.

Lemma matchRules_front (desc : string) before first keywords rest :
  Matches desc keywords ->
  exists category,
    matchRules desc (before ++ (first, keywords) :: rest) = Some category /\
    In category (map fst (before ++ [(first, keywords)])).
Proof.
  intros Hm. induction before as [|[c ks] before IH]; simpl.
  - apply existsb_includes in Hm. rewrite Hm. exists first. auto.
  - destruct (existsb _ ks).
    + exists c. auto.
    + destruct IH as (c' & E & Hin). exists c'. auto.
Qed.

(** The classifier only answers with one of the ten identifiers. *)
Lemma categorizeTransaction_id (description type : string) :
  In (categorizeTransaction description type) CATEGORY_IDS.
Proof.
  rewrite categorizeTransaction_unfold.
  destruct (existsb _ INCOME_HINTS).
  - unfold CATEGORY_IDS. simpl. tauto.
  - destruct (matchRules _ CATEGORY_RULES) as [c|] eqn:E.
    + apply matchRules_key in E.
      change (keys CATEGORY_RULES) with
        ["food"; "shopping"; "leisure"; "transport"; "utilities";
         "healthcare"; "transfer"; "investment"; "subscription"] in E.
      unfold CATEGORY_IDS. simpl in *. tauto.
    + unfold CATEGORY_IDS. simpl. tauto.
Qed.

(** C4: when the lower-cased type hint contains one of "credit", "deposit",
    "income", "salary", "refund", "interest", the classifier answers
    "transfer", whatever the description. *)
Theorem income_hint_gives_transfer (description type hint : string) :
  In hint INCOME_HINTS ->
  Substring hint (toLowerCase type) ->
  categorizeTransaction description type = "transfer".
Proof.
  intros Hin Hsub. rewrite categorizeTransaction_unfold.
  assert (Hi : IncomeHinted type) by (exists hint; now split).
  apply income_test in Hi. now rewrite Hi.
Qed.

(** C5: without an income hint, the classifier answers with the first
    category of the rule table, in its declaration order food, shopping,
    leisure, transport, utilities, healthcare, transfer, investment,
    subscription, one of whose keywords occurs in the lower-cased
    description; a category declared after a matching one is never the
    answer; and the answer is "unknown" when no keyword occurs. *)
Theorem first_declared_match_wins (description type : string) :
  ~ IncomeHinted type ->
  let desc := toLowerCase description in
  keys CATEGORY_RULES =
    ["food"; "shopping"; "leisure"; "transport"; "utilities"; "healthcare";
     "transfer"; "investment"; "subscription"] /\
  (forall earlier category keywords later,
      CATEGORY_RULES = (earlier ++ (category, keywords) :: later)%list ->
      Forall (fun rule => ~ Matches desc (snd rule)) earlier ->
      Matches desc keywords ->
      categorizeTransaction description type = category) /\
  (forall before first keywords between second keywords' later,
      CATEGORY_RULES =
        (before ++ (first, keywords) :: between ++
         (second, keywords') :: later)%list ->
      Matches desc keywords ->
      categorizeTransaction description type <> second) /\
  (Forall (fun rule => ~ Matches desc (snd rule)) CATEGORY_RULES ->
   categorizeTransaction description type = "unknown").
Proof.
  intros Hno desc. apply income_test_false in Hno.
  split; [reflexivity|]. split; [|split].
  - intros earlier category keywords later Hsplit Hearlier Hm.
    rewrite categorizeTransaction_unfold, Hno. fold desc.
    now rewrite Hsplit, (matchRules_first _ _ Hearlier Hm).
  - intros before first keywords between second keywords' later Hsplit Hm.
    rewrite categorizeTransaction_unfold, Hno. fold desc.
    assert (Hnodup : NoDup (keys CATEGORY_RULES)).
    { change (keys CATEGORY_RULES) with
        ["food"; "shopping"; "leisure"; "transport"; "utilities";
         "healthcare"; "transfer"; "investment"; "subscription"].
      repeat constructor; simpl; intuition discriminate. }
    rewrite Hsplit in *. clear Hsplit.
    destruct (matchRules_front before first
                (between ++ (second, keywords') :: later) Hm)
      as (c & E & Hin).
    rewrite E. intros ->.
    unfold keys in Hnodup.
    replace (before ++ (first, keywords) :: between ++
             (second, keywords') :: later)%list
      with ((before ++ [(first, keywords)]) ++
            between ++ (second, keywords') :: later)%list in Hnodup
      by now rewrite <- app_assoc.
    rewrite map_app in Hnodup.
    eapply NoDup_app_disjoint; [exact Hnodup | exact Hin |].
    rewrite map_app. apply in_or_app. right. now left.
  - intros Hnone.
    rewrite categorizeTransaction_unfold, Hno. fold desc.
    now rewrite (matchRules_none Hnone).
Qed.
End ClassifierFacts.

(** ** Sorting *)

Section SortFacts.
Variable A : Type.
Variable comparefn : A -> A -> option Z.
(** The sort key the comparator orders by. *)
Variable key : A -> Z.

Lemma ComparesKeys_tail (x : A) (l : list A) :
  ComparesKeys comparefn key (x :: l) -> ComparesKeys comparefn key l.
Proof. intros Hc a b Ha Hb. apply Hc; now right. Qed.

Lemma insertSorted_perm (x : A) (l : list A) :
  Permutation (insertSorted comparefn x l) (x :: l).
Proof.
  induction l as [|y l IH]; simpl; [reflexivity|].
  destruct (0 <? sortCompare comparefn x y)%Z; [|reflexivity].
  rewrite IH. apply perm_swap.
Qed.

Lemma sort_perm (l : list A) : Permutation (sort comparefn l) l.
Proof.
  induction l as [|x l IH]; simpl; [reflexivity|].
  now rewrite insertSorted_perm, IH.
Qed.

Lemma sort_In (l : list A) (x : A) : In x (sort comparefn l) <-> In x l.
Proof.
  split; apply Permutation_in; [|symmetry]; apply sort_perm.
Qed.

Lemma insertSorted_sorted (x : A) (l : list A) :
  ComparesKeys comparefn key (x :: l) ->
  StronglySorted (fun a b => key a <= key b)%Z l ->
  StronglySorted (fun a b => key a <= key b)%Z (insertSorted comparefn x l).
Proof.
  intros Hc Hs. induction Hs as [|y l Hs IH Hy]; simpl.
  - repeat constructor.
  - unfold sortCompare. rewrite (Hc x y) by (simpl; auto).
    destruct (Z.ltb_spec 0 (key x - key y)) as [Hlt|Hle].
    + constructor.
      * apply IH. intros a b Ha Hb. apply Hc; simpl in *; tauto.
      * rewrite Forall_forall. intros z Hz.
        apply (Permutation_in _ (insertSorted_perm x l)) in Hz.
        destruct Hz as [<-|Hz]; [lia|].
        rewrite Forall_forall in Hy. now apply Hy.
    + constructor; [now constructor|].
      constructor; [lia|].
      rewrite Forall_forall in *. intros z Hz. specialize (Hy z Hz). lia.
Qed.

Lemma sort_sorted (l : list A) :
  ComparesKeys comparefn key l ->
  StronglySorted (fun a b => key a <= key b)%Z (sort comparefn l).
Proof.
  induction l as [|x l IH]; intros Hc; simpl; [constructor|].
  apply insertSorted_sorted.
  - intros a b Ha Hb.
    apply Hc; simpl in *; rewrite sort_In in *; assumption.
  - apply IH. now apply ComparesKeys_tail in Hc.
Qed.

(** Insertion only moves an element past elements of smaller key. *)
Lemma insertSorted_stable (k : Z) (x : A) (l : list A) :
  ComparesKeys comparefn key (x :: l) ->
  filter (hasKey key k) (insertSorted comparefn x l) =
  filter (hasKey key k) (x :: l).
Proof.
  induction l as [|y l IH]; intros Hc; [reflexivity|].
  simpl insertSorted. unfold sortCompare. rewrite (Hc x y) by (simpl; auto).
  destruct (Z.ltb_spec 0 (key x - key y)) as [Hlt|Hle]; [|reflexivity].
  assert (IH' : filter (hasKey key k) (insertSorted comparefn x l) =
                filter (hasKey key k) (x :: l)).
  { apply IH. intros a b Ha Hb. apply Hc; simpl in *; tauto. }
  simpl in *. rewrite IH'. unfold hasKey.
  destruct (Z.eqb_spec (key x) k), (Z.eqb_spec (key y) k);
    trivial; lia.
Qed.

Lemma sort_stable (k : Z) (l : list A) :
  ComparesKeys comparefn key l ->
  filter (hasKey key k) (sort comparefn l) = filter (hasKey key k) l.
Proof.
  induction l as [|x l IH]; intros Hc; [reflexivity|].
  simpl sort. rewrite insertSorted_stable.
  - simpl. rewrite IH; [reflexivity | now apply ComparesKeys_tail in Hc].
  - intros a b Ha Hb.
    apply Hc; simpl in *; rewrite sort_In in *; assumption.
Qed.

(** A list sorted by key is determined by its elements of each key, taken
    in order: the sorted stable arrangement of an array is unique, so
    [sort] returns what any stable sort returns. *)
Lemma sorted_stable_unique (l1 l2 : list A) :
  StronglySorted (fun a b => key a <= key b)%Z l1 ->
  StronglySorted (fun a b => key a <= key b)%Z l2 ->
  (forall k, filter (hasKey key k) l1 = filter (hasKey key k) l2) ->
  l1 = l2.
Proof.
  intros Hs1. revert l2.
  induction Hs1 as [|x l1 Hs1 IH Hx]; intros l2 Hs2 Hf.
  - destruct l2 as [|y l2]; trivial.
    specialize (Hf (key y)). simpl in Hf. unfold hasKey in Hf.
    rewrite Z.eqb_refl in Hf. discriminate Hf.
  - destruct Hs2 as [|y l2 Hs2 Hy].
    + specialize (Hf (key x)). simpl in Hf. unfold hasKey in Hf.
      rewrite Z.eqb_refl in Hf. discriminate Hf.
    + assert (Hkey : key x = key y).
      { rewrite Forall_forall in Hx, Hy.
        pose proof (Hf (key x)) as Fx. pose proof (Hf (key y)) as Fy.
        simpl in Fx, Fy. unfold hasKey in Fx, Fy.
        rewrite Z.eqb_refl in Fx, Fy.
        destruct (Z.eqb_spec (key y) (key x)) as [|ne]; [congruence|].
        destruct (Z.eqb_spec (key x) (key y)) as [|_]; [congruence|].
        assert (Hx2 : In x l2).
        { eapply (proj1 (filter_In _ x l2)). rewrite <- Fx. now left. }
        assert (Hy1 : In y l1).
        { eapply (proj1 (filter_In _ y l1)). rewrite Fy. now left. }
        specialize (Hx y Hy1). specialize (Hy x Hx2). lia. }
      assert (x = y).
      { specialize (Hf (key x)). simpl in Hf. unfold hasKey in Hf.
        rewrite <- Hkey, Z.eqb_refl in Hf. congruence. }
      subst y. f_equal. apply IH; trivial.
      intros k. specialize (Hf k). simpl in Hf.
      destruct (hasKey key k x); congruence.
Qed.

(** Whatever stable sort the engine runs, it returns the array of [sort]. *)
Lemma sort_unique (l l' : list A) :
  ComparesKeys comparefn key l ->
  StronglySorted (fun a b => key a <= key b)%Z l' ->
  (forall k, filter (hasKey key k) l' = filter (hasKey key k) l) ->
  l' = sort comparefn l.
Proof.
  intros Hc Hs Hf. apply sorted_stable_unique; trivial.
  - now apply sort_sorted.
  - intros k. now rewrite Hf, sort_stable.
Qed.
End SortFacts.

(** ** Dictionaries *)

Section DictionaryFacts.
Variable V : Type.
Implicit Types (o : dict V) (f : option V -> V) (k c : string).

Lemma lookup_in_keys k o :
  In k (keys o) -> exists v, lookup k o = Some v.
Proof.
  induction o as [|[k' v] o IH]; simpl; [tauto|].
  intros Hin. destruct (String.eqb_spec k k') as [->|ne]; eauto.
  apply IH. destruct Hin; congruence.
Qed.

Lemma keys_update_in k f o :
  In k (keys o) -> keys (update k f o) = keys o.
Proof.
  induction o as [|[k' v] o IH]; simpl; [tauto|].
  intros Hin. destruct (String.eqb_spec k k') as [->|ne]; trivial.
  simpl. f_equal. apply IH. destruct Hin; congruence.
Qed.

Lemma lookup_update_ne k c f o :
  c <> k -> lookup c (update k f o) = lookup c o.
Proof.
  intros ne. induction o as [|[k' v] o IH]; simpl.
  - now apply String.eqb_neq in ne as ->.
  - destruct (String.eqb_spec k k') as [->|ne']; simpl.
    + now apply String.eqb_neq in ne as ->.
    + now rewrite IH.
Qed.

Lemma lookup_constant (z : V) k (ks : list string) :
  In k ks -> lookup k (map (fun k' => (k', z)) ks) = Some z.
Proof.
  induction ks as [|k' ks IH]; simpl; [tauto|].
  intros Hin. destruct (String.eqb_spec k k') as [->|ne]; trivial.
  apply IH. destruct Hin; congruence.
Qed.

(** Writing back the value a key already holds changes nothing. *)
Lemma update_same k f o v :
  lookup k o = Some v -> f (Some v) = v -> update k f o = o.
Proof.
  induction o as [|[k' v'] o IH]; simpl; [discriminate|].
  destruct (String.eqb_spec k k') as [->|ne].
  - intros [= ->] ->. reflexivity.
  - intros Hl Hf. now rewrite IH.
Qed.
End DictionaryFacts.

(** ** Sums in exact arithmetic *)

Section ExactArithmetic.
Context {num : Type} {N : JSNumber num}.
Hypothesis add_assoc : forall x y z : num, add x (add y z) = add (add x y) z.
Hypothesis add_comm : forall x y : num, add x y = add y x.
Hypothesis add_zero_l : forall x : num, add zero x = x.

Lemma fold_left_add (l : list num) (a : num) :
  fold_left add l a = add a (fold_left add l zero).
Proof.
  revert a. induction l as [|x l IH]; intros a; simpl.
  - now rewrite add_comm, add_zero_l.
  - rewrite IH, (IH (add zero x)), add_zero_l. symmetry. apply add_assoc.
Qed.

Lemma sumValues_cons (k : string) (v : num) (o : dict num) :
  sumValues ((k, v) :: o) = add v (sumValues o).
Proof.
  unfold sumValues. simpl. now rewrite fold_left_add, add_zero_l.
Qed.

(** [o[k] += x] on a key of [o] adds [x] to the sum of its values. *)
Lemma sumValues_plusAssign (k : string) (x : num) (o : dict num) :
  In k (keys o) -> sumValues (plusAssign k x o) = add (sumValues o) x.
Proof.
  unfold plusAssign.
  induction o as [|[k' v] o IH]; simpl; [tauto|].
  intros Hin. destruct (String.eqb_spec k k') as [->|ne].
  - rewrite !sumValues_cons.
    now rewrite <- !add_assoc, (add_comm x).
  - rewrite !sumValues_cons, IH by (destruct Hin; congruence).
    apply add_assoc.
Qed.
End ExactArithmetic.

Lemma integral_add_assoc (x y z : integral) :
  integral_add x (integral_add y z) = integral_add (integral_add x y) z.
Proof. destruct x, y, z; simpl; trivial; f_equal; lia. Qed.

Lemma integral_add_comm (x y : integral) :
  integral_add x y = integral_add y x.
Proof. destruct x, y; simpl; trivial; f_equal; lia. Qed.

Lemma integral_add_zero_l (x : integral) : integral_add (Int 0) x = x.
Proof. now destruct x. Qed.

(** ** Aggregation *)

Lemma StronglySorted_weaken (A : Type) (R R' : A -> A -> Prop) (l : list A) :
  (forall a b, In a l -> In b l -> R a b -> R' a b) ->
  StronglySorted R l -> StronglySorted R' l.
Proof.
  intros Hw Hs. induction Hs as [|x l Hs IH Hx]; constructor.
  - apply IH. intros a b Ha Hb. apply Hw; now right.
  - rewrite Forall_forall in *. intros y Hy.
    apply Hw; [now left | now right | now apply Hx].
Qed.

Section AnalyzerFacts.
Context {num : Type} {N : JSNumber num} {H : Host}.
Implicit Types (raws : list (RawTransaction num)) (acc : Totals num)
               (t : Transaction num) (l : list (Transaction num)).

Lemma categorized_ids raws :
  Forall (fun t => In (type t) CATEGORY_IDS)
         (sort compareDates (map categorize raws)).
Proof.
  rewrite Forall_forall. intros t Ht.
  apply sort_In, in_map_iff in Ht. destruct Ht as (raw & <- & _).
  apply categorizeTransaction_id.
Qed.

Lemma processTransaction_keys acc t :
  In (type t) (keys (expenditureByCategory acc)) ->
  keys (expenditureByCategory (processTransaction acc t)) =
  keys (expenditureByCategory acc).
Proof.
  intros Hin. unfold processTransaction.
  destruct (gt0 (amount t)); simpl; trivial.
  now apply keys_update_in.
Qed.

Lemma fold_processTransaction_keys l acc :
  Forall (fun t => In (type t) (keys (expenditureByCategory acc))) l ->
  keys (expenditureByCategory (fold_left processTransaction l acc)) =
  keys (expenditureByCategory acc).
Proof.
  revert acc. induction l as [|t l IH]; intros acc Hl; simpl; trivial.
  inversion_clear Hl as [|? ? Ht Hl'].
  rewrite IH; rewrite processTransaction_keys; trivial.
Qed.

(** A category none of whose transactions takes the expenditure branch
    keeps its value. *)
Lemma fold_processTransaction_untouched (c : string) l acc :
  (forall t, In t l -> type t = c -> gt0 (amount t) = true) ->
  lookup c (expenditureByCategory (fold_left processTransaction l acc)) =
  lookup c (expenditureByCategory acc).
Proof.
  revert acc. induction l as [|t l IH]; intros acc Hl; simpl; trivial.
  rewrite IH by (intros; apply Hl; simpl; auto).
  unfold processTransaction.
  destruct (gt0 (amount t)) eqn:Hg; simpl; trivial.
  apply lookup_update_ne. intros Hc.
  rewrite (Hl t) in Hg by (simpl; auto). discriminate Hg.
Qed.

Lemma dates_compare raws :
  DatesParse raws ->
  ComparesKeys compareDates timeOf (map categorize raws).
Proof.
  intros Hp a b Ha Hb. unfold DatesParse in Hp. rewrite Forall_forall in Hp.
  apply in_map_iff in Ha, Hb.
  destruct Ha as (ra & <- & Ha), Hb as (rb & <- & Hb).
  apply Hp in Ha, Hb. unfold compareDates, timeOf. simpl.
  destruct (getTime (raw_date ra)), (getTime (raw_date rb)); congruence.
Qed.

Lemma dates_parsed raws t :
  DatesParse raws -> In t (map categorize raws) ->
  getTime (date t) = Some (timeOf t).
Proof.
  intros Hp Ht. unfold DatesParse in Hp. rewrite Forall_forall in Hp.
  apply in_map_iff in Ht. destruct Ht as (r & <- & Hr).
  apply Hp in Hr. unfold timeOf. simpl.
  destruct (getTime (raw_date r)); congruence.
Qed.

(** C1: the summary's final balance is its initial balance plus its total
    income plus its total expenditure, and its initial balance is the
    balance handed in (0 when none is). *)
Theorem balance_identity raws (initialBalance : option num) :
  let s := analyzeTransactions raws initialBalance in
  final_balance s =
    add (add (initial_balance s) (total_income s)) (total_expenditure s) /\
  initial_balance s =
    match initialBalance with Some b => b | None => zero end.
Proof. split; reflexivity. Qed.

(** C3: the keys of [expenditure_by_category] are the ten category
    identifiers, whatever the input, and a category that no transaction
    taking the expenditure branch was assigned to holds 0. *)
Theorem every_category_present raws (initialBalance : option num) :
  let s := analyzeTransactions raws initialBalance in
  keys (expenditure_by_category s) = CATEGORY_IDS /\
  forall c, In c CATEGORY_IDS ->
    exists v, lookup c (expenditure_by_category s) = Some v /\
      ((forall raw, In raw raws ->
          categorizeTransaction (raw_description raw) (raw_type raw) = c ->
          gt0 (raw_amount raw) = true) ->
       v = zero).
Proof.
  unfold analyzeTransactions. cbn zeta. cbn [expenditure_by_category].
  assert (Hkeys : keys (expenditureByCategory
                  (fold_left processTransaction
                     (sort compareDates (map categorize raws))
                     initialTotals)) = CATEGORY_IDS).
  { rewrite fold_processTransaction_keys; [reflexivity|].
    apply categorized_ids. }
  split; [exact Hkeys|].
  intros c Hc. rewrite <- Hkeys in Hc.
  destruct (lookup_in_keys _ _ Hc) as [v Hv]. exists v. split; trivial.
  intros Hincome.
  rewrite fold_processTransaction_untouched in Hv.
  - rewrite Hkeys in Hc. unfold initialTotals in Hv.
    cbn [expenditureByCategory] in Hv.
    rewrite (lookup_constant zero _ _ Hc) in Hv. now injection Hv.
  - intros t Ht Htype.
    apply sort_In, in_map_iff in Ht. destruct Ht as (raw & <- & Hraw).
    now apply Hincome.
Qed.

(** C7: when every date parses, [transaction_details] holds the
    categorised input transactions, arranged with non-decreasing parsed
    dates, whatever the order of the input. *)
Theorem details_sorted_by_date raws (initialBalance : option num) :
  DatesParse raws ->
  let details :=
    transaction_details (analyzeTransactions raws initialBalance) in
  StronglySorted NotLater details /\
  Permutation details (map categorize raws).
Proof.
  intros Hp. simpl. split; [|apply sort_perm].
  apply StronglySorted_weaken
    with (R := fun a b => (timeOf a <= timeOf b)%Z).
  - intros a b Ha Hb Hle. rewrite sort_In in Ha, Hb.
    exists (timeOf a), (timeOf b).
    repeat split; trivial; now apply dates_parsed with raws.
  - now apply sort_sorted, dates_compare.
Qed.

(** C8: when every date parses, the transactions of any one parsed date
    appear in [transaction_details] in the order they have in the
    input. *)
Theorem details_stable_on_ties raws (initialBalance : option num) :
  DatesParse raws ->
  forall d : Z,
    filter (onDate d)
           (transaction_details (analyzeTransactions raws initialBalance)) =
    filter (onDate d) (map categorize raws).
Proof.
  intros Hp d. simpl.
  assert (Hon : forall l, (forall t, In t l -> In t (map categorize raws)) ->
                filter (onDate d) l = filter (hasKey timeOf d) l).
  { intros l Hl. apply filter_ext_in. intros t Ht.
    unfold onDate, hasKey. now rewrite (dates_parsed _ Hp (Hl t Ht)). }
  rewrite !Hon.
  - now apply sort_stable, dates_compare.
  - trivial.
  - intros t. now rewrite sort_In.
Qed.
End AnalyzerFacts.

(** C2, as stated, fails in binary64: on [roundingStatement] the running
    total is -0.6000000000000001 while the values of the categories, -0.1
    and -0.5, sum to -0.6. *)
Lemma category_sum_differs_in_binary64 :
  total_expenditure
    (analyzeTransactions (H := AsciiIsoHost) roundingStatement None) <>
  sumValues
    (expenditure_by_category
       (analyzeTransactions (H := AsciiIsoHost) roundingStatement None)).
Proof. vm_compute. intros E. discriminate E. Qed.

Section ZeroAmounts.
Context {num : Type} {N : JSNumber num} {H : Host}.
Implicit Types (acc : Totals num) (t : Transaction num)
               (l : list (Transaction num)).

Lemma totalsOf_analyzeTransactions (raws : list (RawTransaction num))
    (initialBalance : option num) :
  totalsOf (analyzeTransactions raws initialBalance) =
  fold_left processTransaction
            (sort compareDates (map categorize raws)) initialTotals.
Proof.
  unfold totalsOf, analyzeTransactions. cbn zeta.
  cbn [total_income total_expenditure expenditure_by_category].
  now destruct (fold_left _ _ _).
Qed.

Lemma countTransaction_skip (counts : dict integral) t :
  lt0 (amount t) = false -> countTransaction counts t = counts.
Proof. intros Hl. unfold countTransaction. now rewrite Hl. Qed.

(** C6: a transaction of amount 0 takes the expenditure branch of the
    aggregation loop: its amount is added to the total expenditure and to
    the value of its category, not to the total income, the loop of
    [analyzeTransactions] running this step for every input transaction of
    amount 0; both additions leave the accumulators as they were whenever
    adding 0 to them does.  The three counting views pass over it. *)
Theorem zero_amount_is_expenditure_not_counted t acc
    (counts : dict integral) (before after : list (Transaction num)) :
  amount t = zero ->
  processTransaction acc t =
    {| totalIncome := totalIncome acc;
       totalExpenditure := add (totalExpenditure acc) (amount t);
       expenditureByCategory :=
         plusAssign (type t) (amount t) (expenditureByCategory acc) |} /\
  (forall v, lookup (type t) (expenditureByCategory acc) = Some v ->
             add v zero = v ->
             add (totalExpenditure acc) zero = totalExpenditure acc ->
             processTransaction acc t = acc) /\
  (forall raws initialBalance raw,
      categorize raw = t -> In raw raws ->
      exists done todo,
        transaction_details (analyzeTransactions raws initialBalance) =
          (done ++ t :: todo)%list /\
        totalsOf (analyzeTransactions raws initialBalance) =
          fold_left processTransaction todo
            (processTransaction
               (fold_left processTransaction done initialTotals) t)) /\
  countTransaction counts t = counts /\
  getTransactionCounts (before ++ t :: after) =
    getTransactionCounts (before ++ after) /\
  getIncomeTransactionCount (before ++ t :: after) =
    getIncomeTransactionCount (before ++ after) /\
  getExpenditureTransactionCount (before ++ t :: after) =
    getExpenditureTransactionCount (before ++ after).
Proof.
  intros Hzero.
  assert (Hgt : gt0 (amount t) = false) by (rewrite Hzero; apply gt0_zero).
  assert (Hlt : lt0 (amount t) = false) by (rewrite Hzero; apply lt0_zero).
  assert (Hstep : processTransaction acc t =
    {| totalIncome := totalIncome acc;
       totalExpenditure := add (totalExpenditure acc) (amount t);
       expenditureByCategory :=
         plusAssign (type t) (amount t) (expenditureByCategory acc) |}).
  { unfold processTransaction. now rewrite Hgt. }
  repeat split.
  - exact Hstep.
  - intros v Hv Hvz Hez. rewrite Hstep, Hzero, Hez.
    unfold plusAssign. rewrite (update_same _ _ _ Hv Hvz).
    now destruct acc.
  - intros raws initialBalance raw Hraw Hin.
    assert (Ht : In t (sort compareDates (map categorize raws))).
    { apply sort_In, in_map_iff. now exists raw. }
    apply in_split in Ht. destruct Ht as (done & todo & Hsplit).
    exists done, todo. split.
    + exact Hsplit.
    + rewrite totalsOf_analyzeTransactions, Hsplit, fold_left_app.
      reflexivity.
  - now apply countTransaction_skip.
  - unfold getTransactionCounts. rewrite !fold_left_app. simpl.
    now rewrite countTransaction_skip.
  - unfold getIncomeTransactionCount. rewrite !filter_app. simpl.
    now rewrite Hgt.
  - unfold getExpenditureTransactionCount. rewrite !filter_app. simpl.
    now rewrite Hlt.
Qed.

Lemma increment_plusAssign (k : string) (counts : dict integral) :
  increment k counts = plusAssign (N := Integral) k (Int 1) counts.
Proof. reflexivity. Qed.

Lemma fold_countTransaction_sum l (counts : dict integral) :
  Forall (fun t => In (type t) (keys counts)) l ->
  sumValues (fold_left countTransaction l counts) =
  integral_add (sumValues counts)
               (Int (Z.of_nat (getExpenditureTransactionCount l))).
Proof.
  unfold getExpenditureTransactionCount.
  revert counts. induction l as [|t l IH]; intros counts Hl; simpl.
  - rewrite integral_add_comm. symmetry. apply integral_add_zero_l.
  - inversion_clear Hl as [|? ? Ht Hl'].
    unfold countTransaction at 2.
    destruct (lt0 (amount t)); [|now apply IH].
    rewrite IH.
    + rewrite increment_plusAssign.
      rewrite (@sumValues_plusAssign integral Integral
                 integral_add_assoc integral_add_comm integral_add_zero_l)
        by trivial.
      cbn [add Integral]. rewrite <- integral_add_assoc. f_equal.
      cbn [integral_add List.length]. f_equal. lia.
    + rewrite increment_plusAssign. unfold plusAssign.
      now rewrite keys_update_in.
Qed.

(** C10: on transactions whose type is one of the ten category
    identifiers, the counts of [getTransactionCounts] add up to
    [getExpenditureTransactionCount], the number of transactions of
    negative amount. *)
Theorem counts_add_up_to_expenditure_count l :
  Forall (fun t => In (type t) CATEGORY_IDS) l ->
  sumValues (getTransactionCounts l) =
    Int (Z.of_nat (getExpenditureTransactionCount l)) /\
  getExpenditureTransactionCount l =
    List.length (filter (fun t => lt0 (amount t)) l).
Proof.
  intros Hl. split; [|reflexivity].
  unfold getTransactionCounts.
  rewrite fold_countTransaction_sum by exact Hl.
  reflexivity.
Qed.
End ZeroAmounts.

(** ** Shape guard *)

Section ShapeGuardFacts.
Context {num : Type}.
Implicit Types (v : jsvalue num) (fields : list (string * jsvalue num)).

Lemma typeof_string v :
  String.eqb (typeof v) "string" = true <-> exists s, v = JString s.
Proof.
  destruct v; simpl; split; intros E; try discriminate E; eauto;
    destruct E as [s' E]; discriminate E.
Qed.

Lemma typeof_number v :
  String.eqb (typeof v) "number" = true <-> exists x, v = JNumber x.
Proof.
  destruct v; simpl; split; intros E; try discriminate E; eauto;
    destruct E as [x' E]; discriminate E.
Qed.

Lemma getProp_string fields (k : string) :
  String.eqb (typeof (getProp (JObject fields) k)) "string" = true <->
  exists s, HasField fields k (JString s).
Proof.
  rewrite typeof_string. unfold getProp, HasField.
  destruct (lookup k fields) as [x|]; split; intros [s E]; exists s;
    congruence.
Qed.

Lemma getProp_number fields (k : string) :
  String.eqb (typeof (getProp (JObject fields) k)) "number" = true <->
  exists x, HasField fields k (JNumber x).
Proof.
  rewrite typeof_number. unfold getProp, HasField.
  destruct (lookup k fields) as [x|]; split; intros [s E]; exists s;
    congruence.
Qed.

Lemma isValidTransaction_spec v :
  isValidTransaction v = true <-> TransactionShaped v.
Proof.
  unfold TransactionShaped.
  destruct v as [| |b|x|s|items|fields];
    try (split; [discriminate | intros (? & ? & ? & ? & ? & E & _);
                                discriminate E]).
  unfold isValidTransaction.
  change (String.eqb (typeof (JObject fields)) "object") with true.
  change (negb (isNull (JObject fields))) with true.
  rewrite !andb_true_l, !andb_true_iff.
  rewrite !getProp_string, getProp_number.
  split.
  - intros ((([d Hd] & [s Hs]) & [a Ha]) & [t Ht]).
    now exists fields, d, s, a, t.
  - intros (fields' & d & s & a & t & [= <-] & Hd & Hs & Ha & Ht).
    repeat split; eauto.
Qed.

(** C9: the guard accepts a candidate exactly when it is a non-null record
    whose [transactions] field is a sequence of non-null records, each
    with a text date, a text description, a numeric amount and a text
    type, and whose [initial_balance] field, when present, is numeric. *)
Theorem shape_guard_accepts_iff v :
  isValidExtractedPageData v = true <-> PageShaped v.
Proof.
  unfold PageShaped.
  destruct v as [| |b|x|s|items|fields];
    try (split; [discriminate | intros (? & ? & E & _); discriminate E]).
  unfold isValidExtractedPageData.
  change (negb (String.eqb (typeof (JObject fields)) "object")
          || isNull (JObject fields)) with false.
  cbv iota zeta. unfold getProp, HasField.
  destruct (lookup "transactions" fields) as [[| |b|x|s|items|fs]|] eqn:Htx;
    try (split; [discriminate | intros (? & ? & [= <-] & E & _);
                                rewrite Htx in E; discriminate E]).
  cbn [isArray elements negb].
  split.
  - intros Hok.
    destruct (forallb isValidTransaction items) eqn:Hall;
      [|discriminate Hok].
    exists fields, items.
    split; [reflexivity|]. split; [exact Htx|]. split.
    + rewrite forallb_forall in Hall. rewrite Forall_forall.
      intros t Ht. now apply isValidTransaction_spec, Hall.
    + intros b Hb Hdef. rewrite Hb in Hok.
      destruct b; simpl in Hok; try discriminate Hok; eauto.
      contradiction.
  - intros (fields' & items' & [= <-] & Htx' & Hall & Hbal).
    rewrite Htx in Htx'. injection Htx' as <-.
    assert (Hf : forallb isValidTransaction items = true).
    { rewrite forallb_forall. rewrite Forall_forall in Hall.
      intros t Ht. now apply isValidTransaction_spec, Hall. }
    rewrite Hf. simpl negb. cbv iota.
    destruct (lookup "initial_balance" fields) as [b|]; trivial.
    destruct b; trivial;
      (destruct (Hbal _ eq_refl) as [x' E];
       [discriminate | discriminate E]).
Qed.
End ShapeGuardFacts.

(** * Concrete runs *)

Example scenario_A :
  analyzeTransactions (H := AsciiIsoHost)
    [raw "2024-01-05" "Starbucks Coffee" "debit" (-4.5)%float]
    (Some 100%float) =
  {| initial_balance := 100%float;
     final_balance := 95.5%float;
     total_income := 0%float;
     total_expenditure := (-4.5)%float;
     expenditure_by_category :=
       [("food", (-4.5)%float); ("shopping", 0%float); ("leisure", 0%float);
        ("transport", 0%float); ("utilities", 0%float);
        ("healthcare", 0%float); ("transfer", 0%float);
        ("investment", 0%float); ("subscription", 0%float);
        ("unknown", 0%float)];
     transaction_details :=
       [{| date := "2024-01-05"; description := "Starbucks Coffee";
           amount := (-4.5)%float; type := "food" |}] |}.
Proof. vm_compute. reflexivity. Qed.

Example scenario_B :
  let s := analyzeTransactions (H := AsciiIsoHost)
             [raw "2024-01-01" "Payroll Deposit" "credit" 2000%float] None in
  (total_income s, total_expenditure s, final_balance s,
   map (@type float) (transaction_details s)) =
  (2000%float, 0%float, 2000%float, ["transfer"]).
Proof. vm_compute. reflexivity. Qed.

Example scenario_C :
  map (@description float)
      (transaction_details
         (analyzeTransactions (H := AsciiIsoHost) shuffledStatement None)) =
  ["Uber trip"; "Starbucks Coffee"; "Payroll Deposit";
   "Netflix subscription"].
Proof. vm_compute. reflexivity. Qed.

Example scenario_E :
  let s := analyzeTransactions (H := AsciiIsoHost)
             (@nil (RawTransaction float)) (Some 50%float) in
  (total_income s, total_expenditure s, final_balance s) =
  (0%float, 0%float, 50%float) /\
  expenditure_by_category s = map (fun k => (k, 0%float)) CATEGORY_IDS.
Proof. vm_compute. split; reflexivity. Qed.

Lemma income_hint_gives_transfer_witness :
  categorizeTransaction (H := AsciiIsoHost) "Starbucks Coffee" "Direct DEPOSIT"
  = "transfer".
Proof.
  apply (income_hint_gives_transfer (H := AsciiIsoHost)
           "Starbucks Coffee" "Direct DEPOSIT" (hint := "deposit")).
  - simpl. tauto.
  - exists "direct ", "". reflexivity.
Defined.

Lemma first_declared_match_wins_witness :
  categorizeTransaction (H := AsciiIsoHost) "Netflix subscription" "debit"
  = "leisure".
Proof.
  assert (Hno : ~ IncomeHinted (H := AsciiIsoHost) "debit").
  { apply income_test_false. reflexivity. }
  apply (proj1 (proj2 (first_declared_match_wins
                         (H := AsciiIsoHost) "Netflix subscription" Hno))
           (firstn 2 CATEGORY_RULES) "leisure"
           (snd (nth 2 CATEGORY_RULES ("", []))) (skipn 3 CATEGORY_RULES)).
  - reflexivity.
  - repeat (apply Forall_cons;
            [apply existsb_includes_false; reflexivity|]).
    apply Forall_nil.
  - exists "netflix". split.
    + simpl. tauto.
    + exists "", " subscription". reflexivity.
Defined.

Lemma zero_amount_is_expenditure_not_counted_witness :
  processTransaction initialTotals zeroTransaction = initialTotals /\
  getTransactionCounts [zeroTransaction] =
    getTransactionCounts (@nil (Transaction float)) /\
  getIncomeTransactionCount [zeroTransaction] = 0%nat /\
  getExpenditureTransactionCount [zeroTransaction] = 0%nat.
Proof.
  destruct (zero_amount_is_expenditure_not_counted
              (N := Float64) (H := AsciiIsoHost) zeroTransaction initialTotals
              [] [] [] eq_refl)
    as (_ & Hsame & _ & _ & Hcounts & Hincome & Hexpenditure).
  split; [|split; [|split]].
  - apply (Hsame 0%float); reflexivity.
  - exact Hcounts.
  - exact Hincome.
  - exact Hexpenditure.
Defined.

Lemma details_sorted_by_date_witness :
  StronglySorted (NotLater (H := AsciiIsoHost))
    (transaction_details
       (analyzeTransactions (H := AsciiIsoHost) shuffledStatement None)).
Proof.
  apply (details_sorted_by_date (H := AsciiIsoHost) (raws := shuffledStatement)).
  repeat (apply Forall_cons; [vm_compute; discriminate|]).
  apply Forall_nil.
Defined.

Lemma details_stable_on_ties_witness :
  filter (onDate (H := AsciiIsoHost) 1704067200000)
    (transaction_details
       (analyzeTransactions (H := AsciiIsoHost) shuffledStatement None)) =
  filter (onDate (H := AsciiIsoHost) 1704067200000)
    (map (categorize (H := AsciiIsoHost)) shuffledStatement).
Proof.
  apply (details_stable_on_ties (H := AsciiIsoHost) (raws := shuffledStatement)).
  repeat (apply Forall_cons; [vm_compute; discriminate|]).
  apply Forall_nil.
Defined.

Lemma counts_add_up_to_expenditure_count_witness :
  sumValues
    (getTransactionCounts
       (transaction_details
          (analyzeTransactions (H := AsciiIsoHost) shuffledStatement None))) =
  Int 3.
Proof.
  etransitivity.
  - apply (counts_add_up_to_expenditure_count
             (l := transaction_details
                     (analyzeTransactions (H := AsciiIsoHost)
                        shuffledStatement None))).
    vm_compute.
    repeat (apply Forall_cons; [simpl; tauto|]). apply Forall_nil.
  - vm_compute. reflexivity.
Defined.

(** * Further properties of the analyzer *)

Lemma lookup_update_same (V : Type) (k : string) (f : option V -> V)
    (o : dict V) :
  lookup k (update k f o) = Some (f (lookup k o)).
Proof.
  induction o as [|[k' v] o IH]; simpl.
  - now rewrite String.eqb_refl.
  - destruct (String.eqb_spec k k') as [->|ne]; simpl.
    + now rewrite String.eqb_refl.
    + now apply String.eqb_neq in ne as ->.
Qed.

(** Two dictionaries with the same keys, each once, and the same value
    under every key are equal. *)
Lemma dict_ext (V : Type) (o1 o2 : dict V) :
  keys o1 = keys o2 -> NoDup (keys o1) ->
  (forall k, In k (keys o1) -> lookup k o1 = lookup k o2) ->
  o1 = o2.
Proof.
  revert o2. induction o1 as [|[k v] o1 IH]; intros [|[k' v'] o2]; simpl;
    try discriminate; trivial.
  intros [= <- Hk] Hnd Hl. inversion_clear Hnd as [|? ? Hnot Hnd'].
  pose proof (Hl k (or_introl eq_refl)) as Hv.
  rewrite String.eqb_refl in Hv. injection Hv as <-.
  f_equal. apply IH; trivial.
  intros c Hc. specialize (Hl c (or_intror Hc)).
  destruct (String.eqb_spec c k) as [E|_]; [now subst c | exact Hl].
Qed.

Lemma Permutation_filter_compat (A : Type) (f : A -> bool) (l l' : list A) :
  Permutation l l' -> Permutation (filter f l) (filter f l').
Proof.
  induction 1 as [|x l l' _ IH|x y l|l l' l'' _ IH1 _ IH2]; simpl.
  - constructor.
  - destruct (f x); [now constructor | exact IH].
  - destruct (f x), (f y); try reflexivity. apply perm_swap.
  - now transitivity (filter f l').
Qed.

Section AggregationFacts.
Context {num : Type} {N : JSNumber num} {H : Host}.
Implicit Types (raws : list (RawTransaction num)) (acc : Totals num)
               (t : Transaction num) (l : list (Transaction num)).

Lemma fold_processTransaction_income l acc :
  totalIncome (fold_left processTransaction l acc) =
  fold_left add (map amount (filter takesIncomeBranch l)) (totalIncome acc).
Proof.
  revert acc. induction l as [|t l IH]; intros acc; simpl; trivial.
  rewrite IH. unfold processTransaction, takesIncomeBranch.
  now destruct (gt0 (amount t)).
Qed.

Lemma fold_processTransaction_expenditure l acc :
  totalExpenditure (fold_left processTransaction l acc) =
  fold_left add (map amount (filter takesExpenditureBranch l))
            (totalExpenditure acc).
Proof.
  revert acc. induction l as [|t l IH]; intros acc; simpl; trivial.
  rewrite IH. unfold processTransaction, takesExpenditureBranch.
  now destruct (gt0 (amount t)).
Qed.

Lemma fold_processTransaction_category (c : string) l acc (v : num) :
  lookup c (expenditureByCategory acc) = Some v ->
  lookup c (expenditureByCategory (fold_left processTransaction l acc)) =
  Some (fold_left add
          (map amount
             (filter (fun t => takesExpenditureBranch t && hasType c t) l))
          v).
Proof.
  revert acc v. induction l as [|t l IH]; intros acc v Hv; simpl; trivial.
  unfold takesExpenditureBranch, hasType, processTransaction at 2.
  destruct (gt0 (amount t)); simpl.
  - now apply IH.
  - destruct (String.eqb_spec (type t) c) as [<-|ne]; simpl.
    + apply IH. simpl. unfold plusAssign.
      now rewrite lookup_update_same, Hv.
    + apply IH. simpl. unfold plusAssign.
      rewrite lookup_update_ne by congruence. exact Hv.
Qed.

(** X1: whatever the dates, [transaction_details] holds the input
    transactions, each once, with date, description and amount as given and
    the classifier's answer as type. *)
Theorem details_are_the_categorised_input raws (initialBalance : option num) :
  let details :=
    transaction_details (analyzeTransactions raws initialBalance) in
  Permutation details (map categorize raws) /\
  List.length details = List.length raws /\
  Forall (fun t => exists raw, In raw raws /\
                     date t = raw_date raw /\
                     description t = raw_description raw /\
                     amount t = raw_amount raw /\
                     type t = categorizeTransaction (raw_description raw)
                                                    (raw_type raw))
         details.
Proof.
  cbn zeta. unfold analyzeTransactions. cbn [transaction_details].
  split; [apply sort_perm|]. split.
  - rewrite (Permutation_length (sort_perm compareDates _)).
    apply length_map.
  - rewrite Forall_forall. intros t Ht.
    apply sort_In, in_map_iff in Ht. destruct Ht as (raw & <- & Hraw).
    exists raw. repeat split; trivial.
Qed.

(** X2: every transaction of [transaction_details] carries one of the ten
    category identifiers. *)
Theorem details_carry_category_ids raws (initialBalance : option num) :
  Forall (fun t => In (type t) CATEGORY_IDS)
         (transaction_details (analyzeTransactions raws initialBalance)).
Proof. apply categorized_ids. Qed.

(** X3: the total income is the sum, in the order of
    [transaction_details], of the amounts that are positive; the total
    expenditure is the sum of all the other amounts; and the value of each
    category is the sum of the other amounts of that category. *)
Theorem totals_are_ordered_sums raws (initialBalance : option num) :
  let s := analyzeTransactions raws initialBalance in
  let details := transaction_details s in
  total_income s = sumAmounts (filter takesIncomeBranch details) /\
  total_expenditure s = sumAmounts (filter takesExpenditureBranch details) /\
  forall c, In c CATEGORY_IDS ->
    lookup c (expenditure_by_category s) =
    Some (sumAmounts
            (filter (fun t => takesExpenditureBranch t && hasType c t)
                    details)).
Proof.
  cbn zeta. unfold analyzeTransactions, sumAmounts.
  cbn [total_income total_expenditure expenditure_by_category
       transaction_details].
  split; [apply fold_processTransaction_income|].
  split; [apply fold_processTransaction_expenditure|].
  intros c Hc. apply fold_processTransaction_category.
  unfold initialTotals. cbn [expenditureByCategory].
  now apply lookup_constant.
Qed.
End AggregationFacts.

(** * Sums that do not round *)

Lemma sumBy_map (A B : Type) (f : A -> B) (g : B -> Z) (l : list A) :
  sumBy g (map f l) = sumBy (fun x => g (f x)) l.
Proof. induction l as [|x l IH]; simpl; [trivial | now rewrite IH]. Qed.

Lemma sumBy_perm (A : Type) (g : A -> Z) (l l' : list A) :
  Permutation l l' -> sumBy g l = sumBy g l'.
Proof.
  induction 1 as [|x l l' _ IH|x y l|l l' l'' _ IH1 _ IH2]; simpl; lia.
Qed.

Lemma sumBy_le (A : Type) (g g' : A -> Z) (l : list A) :
  (forall x, In x l -> (g x <= g' x)%Z) -> (sumBy g l <= sumBy g' l)%Z.
Proof.
  induction l as [|x l IH]; simpl; intros Hg; [lia|].
  specialize (Hg x (or_introl eq_refl)) as Hx.
  specialize (IH (fun y Hy => Hg y (or_intror Hy))). lia.
Qed.

Lemma sumBy_ext (A : Type) (g g' : A -> Z) (l : list A) :
  (forall x, In x l -> g x = g' x) -> sumBy g l = sumBy g' l.
Proof.
  induction l as [|x l IH]; simpl; intros Hg; [trivial|].
  rewrite (Hg x (or_introl eq_refl)).
  now rewrite (IH (fun y Hy => Hg y (or_intror Hy))).
Qed.

Lemma sumBy_filter_le (A : Type) (g : A -> Z) (f : A -> bool) (l : list A) :
  (forall x, (0 <= g x)%Z) -> (sumBy g (filter f l) <= sumBy g l)%Z.
Proof.
  intros Hg. induction l as [|x l IH]; simpl; [lia|].
  specialize (Hg x). destruct (f x); simpl; lia.
Qed.

Lemma sumBy_abs (A : Type) (g : A -> Z) (l : list A) :
  (Z.abs (sumBy g l) <= sumBy (fun x => Z.abs (g x)) l)%Z.
Proof. induction l as [|x l IH]; simpl; lia. Qed.

Lemma sumBy_add (A : Type) (g g' : A -> Z) (l : list A) :
  sumBy (fun x => (g x + g' x)%Z) l = (sumBy g l + sumBy g' l)%Z.
Proof. induction l as [|x l IH]; simpl; lia. Qed.

(** A term that only the key [k] contributes is counted once over distinct
    keys. *)
Lemma sumBy_single (k : string) (v : Z) (ks : list string) :
  NoDup ks -> In k ks ->
  sumBy (fun c => if String.eqb k c then v else 0%Z) ks = v.
Proof.
  induction 1 as [|c ks Hnot _ IH]; simpl; [tauto|].
  intros [->|Hin].
  - rewrite String.eqb_refl.
    rewrite (@sumBy_ext _ _ (fun _ => 0%Z)).
    + clear. induction ks; simpl; lia.
    + intros c Hc. destruct (String.eqb_spec k c) as [->|_]; tauto.
  - destruct (String.eqb_spec k c) as [->|_]; [tauto|]. now rewrite IH.
Qed.

(** Summing per key, over distinct keys that cover the list, sums over the
    list. *)
Lemma sumBy_partition (A : Type) (g : A -> Z) (key : A -> string)
    (ks : list string) (l : list A) :
  NoDup ks -> Forall (fun x => In (key x) ks) l ->
  sumBy (fun c => sumBy g (filter (fun x => String.eqb (key x) c) l)) ks =
  sumBy g l.
Proof.
  intros Hnd. induction 1 as [|x l Hx _ IH]; simpl.
  - clear. induction ks; simpl; lia.
  - rewrite <- IH, <- (@sumBy_single (key x) (g x) ks Hnd Hx), <- sumBy_add.
    apply sumBy_ext. intros c _.
    now destruct (String.eqb (key x) c).
Qed.

Lemma filter_andb (A : Type) (f g : A -> bool) (l : list A) :
  filter (fun x => f x && g x) l = filter g (filter f l).
Proof.
  induction l as [|x l IH]; simpl; trivial.
  destruct (f x); simpl; [destruct (g x)|]; now rewrite IH.
Qed.

Lemma lookup_tabulate (V : Type) (v : string -> V) (k : string)
    (ks : list string) :
  In k ks -> lookup k (map (fun c => (c, v c)) ks) = Some (v k).
Proof.
  induction ks as [|c ks IH]; simpl; [tauto|].
  intros Hin. destruct (String.eqb_spec k c) as [->|ne]; trivial.
  apply IH. destruct Hin; congruence.
Qed.

Lemma NoDup_CATEGORY_IDS : NoDup CATEGORY_IDS.
Proof.
  unfold CATEGORY_IDS. repeat constructor; simpl; intuition discriminate.
Qed.

Section ExactAdditionFacts.
Context {num : Type} {N : JSNumber num}.
Variable count : num -> option Z.
Variable bound : Z.
Hypothesis exact : ExactUpTo count bound.

Lemma count_units (x : num) : count x <> None -> count x = Some (units count x).
Proof. unfold units. now destruct (count x). Qed.

Lemma units_zero : units count zero = 0%Z.
Proof. unfold units. now rewrite (proj1 exact). Qed.

Lemma weight_nonneg (l : list num) : (0 <= weight count l)%Z.
Proof. unfold weight. induction l as [|x l IH]; simpl; lia. Qed.

(** Adding whole counts one after the other, within the bound, gives the
    number of the sum of the counts. *)
Lemma fold_left_add_exact (l : list num) (x : num) :
  count x <> None -> Forall (fun y => count y <> None) l ->
  (Z.abs (units count x) + weight count l <= bound)%Z ->
  count (fold_left add l x) = Some (units count x + sumBy (units count) l)%Z.
Proof.
  revert x. induction l as [|y l IH]; intros x Hx Hl Hb; simpl.
  - rewrite Z.add_0_r. now apply count_units.
  - inversion_clear Hl as [|? ? Hy Hl'].
    unfold weight in Hb. simpl in Hb. fold (weight count l) in Hb.
    pose proof (weight_nonneg l) as Hw.
    destruct exact as (_ & _ & Hadd).
    assert (Hxy : count (add x y) =
                  Some (units count x + units count y)%Z).
    { apply Hadd; [now apply count_units | now apply count_units | lia]. }
    assert (Hu : units count (add x y) =
                 (units count x + units count y)%Z).
    { unfold units at 1. now rewrite Hxy. }
    rewrite IH; trivial.
    + rewrite Hu. f_equal. lia.
    + rewrite Hxy. discriminate.
    + rewrite Hu. lia.
Qed.

Lemma exact_sum (l : list num) :
  CountedWithin count bound l ->
  count (fold_left add l zero) = Some (sumBy (units count) l).
Proof.
  intros [Hl Hb]. rewrite fold_left_add_exact; trivial.
  - now rewrite units_zero.
  - rewrite (proj1 exact). discriminate.
  - rewrite units_zero. simpl. exact Hb.
Qed.

Lemma CountedWithin_perm (l l' : list num) :
  Permutation l l' ->
  CountedWithin count bound l -> CountedWithin count bound l'.
Proof.
  intros Hp [Hl Hb]. split.
  - now rewrite <- Hp.
  - unfold weight in *. now rewrite <- (sumBy_perm _ Hp).
Qed.


Lemma CountedWithin_filter (A : Type) (f : A -> num) (p : A -> bool)
    (l : list A) :
  CountedWithin count bound (map f l) ->
  CountedWithin count bound (map f (filter p l)).
Proof.
  intros [Hl Hb]. split.
  - rewrite Forall_forall in *. intros x Hx.
    apply in_map_iff in Hx. destruct Hx as (a & <- & Ha).
    apply filter_In in Ha. apply Hl, in_map, Ha.
  - unfold weight in *. rewrite sumBy_map in *.
    etransitivity; [|exact Hb].
    apply sumBy_filter_le. intros x. lia.
Qed.
End ExactAdditionFacts.

Section ExactTotals.
Context {num : Type} {N : JSNumber num} {H : Host}.
Variable count : num -> option Z.
Variable bound : Z.
Hypothesis exact : ExactUpTo count bound.
Implicit Types (raws : list (RawTransaction num))
               (l : list (Transaction num)).

Lemma categorized_amounts (p : num -> bool) raws :
  map amount (filter (fun t => p (amount t)) (map categorize raws)) =
  map (@raw_amount num) (filter (fun r => p (raw_amount r)) raws).
Proof.
  induction raws as [|r raws IH]; simpl; trivial.
  destruct (p (raw_amount r)); simpl; now rewrite IH.
Qed.

(** The amounts of the details that take a branch are those of the input,
    in date order. *)
Lemma details_amounts (p : num -> bool) raws :
  Permutation
    (map amount (filter (fun t => p (amount t))
                        (sort compareDates (map categorize raws))))
    (map (@raw_amount num) (filter (fun r => p (raw_amount r)) raws)).
Proof.
  rewrite <- categorized_amounts.
  apply Permutation_map, Permutation_filter_compat, sort_perm.
Qed.


Lemma details_expenditure_counted raws :
  CountedWithin count bound (expenditureAmounts raws) ->
  CountedWithin count bound
    (map amount (filter takesExpenditureBranch
                        (sort compareDates (map categorize raws)))).
Proof.
  apply CountedWithin_perm. symmetry.
  apply (details_amounts (fun x => negb (gt0 x))).
Qed.

(** The dictionary of the category values, entry by entry. *)
Lemma expenditure_by_category_entries l :
  Forall (fun t => In (type t) CATEGORY_IDS) l ->
  expenditureByCategory (fold_left processTransaction l initialTotals) =
  map (fun c =>
         (c, sumAmounts (filter (hasType c) (filter takesExpenditureBranch l))))
      CATEGORY_IDS.
Proof.
  intros Hl.
  assert (Hk : keys (expenditureByCategory
                       (fold_left processTransaction l initialTotals)) =
               CATEGORY_IDS).
  { rewrite fold_processTransaction_keys; [reflexivity | exact Hl]. }
  apply dict_ext.
  - rewrite Hk. unfold keys. rewrite map_map. cbn [fst]. now rewrite map_id.
  - rewrite Hk. apply NoDup_CATEGORY_IDS.
  - intros c Hc. rewrite Hk in Hc.
    rewrite (@lookup_tabulate _
               (fun c => sumAmounts
                           (filter (hasType c)
                                   (filter takesExpenditureBranch l))))
      by exact Hc.
    rewrite <- filter_andb.
    apply fold_processTransaction_category.
    unfold initialTotals. cbn [expenditureByCategory].
    now apply lookup_constant.
Qed.

(** C2, amended: when the amounts that are not positive add up without
    rounding - each is the number of a whole count of units, the counts
    add up, in absolute value, to no more than a bound, and up to this bound
    the sum of the numbers of two counts is the number of the sum of the
    counts, 0 is the number of the count 0 and no count has two numbers -
    the total expenditure is the sum of the values of
    [expenditure_by_category]. *)
Theorem category_sum_identity_exact raws (initialBalance : option num) :
  CountedWithin count bound (expenditureAmounts raws) ->
  let s := analyzeTransactions raws initialBalance in
  total_expenditure s = sumValues (expenditure_by_category s).
Proof.
  intros Hc. cbn zeta. unfold analyzeTransactions.
  cbn [total_expenditure expenditure_by_category].
  apply details_expenditure_counted in Hc.
  pose proof (categorized_ids raws) as Hids.
  set (d := sort compareDates (map categorize raws)) in *.
  set (e := filter takesExpenditureBranch d) in *.
  assert (He : Forall (fun t => In (type t) CATEGORY_IDS) e).
  { rewrite Forall_forall in *. intros t Ht.
    apply Hids. unfold e in Ht. now apply filter_In in Ht. }
  rewrite fold_processTransaction_expenditure. fold e.
  rewrite expenditure_by_category_entries by exact Hids. fold e.
  unfold sumValues, values. rewrite map_map. cbn [snd initialTotals
    totalExpenditure].
  set (v := fun c => sumAmounts (filter (hasType c) e)).
  assert (Hv : forall c, count (v c) =
                 Some (sumBy (fun t => units count (amount t))
                             (filter (hasType c) e))).
  { intros c. unfold v, sumAmounts. rewrite (exact_sum exact).
    - now rewrite sumBy_map.
    - now apply CountedWithin_filter. }
  assert (Hu : forall c, units count (v c) =
                 sumBy (fun t => units count (amount t))
                       (filter (hasType c) e)).
  { intros c. unfold units at 1. now rewrite Hv. }
  assert (Hvs : CountedWithin count bound (map v CATEGORY_IDS)).
  { split.
    - rewrite Forall_forall. intros x Hx.
      apply in_map_iff in Hx. destruct Hx as (c & <- & _).
      rewrite Hv. discriminate.
    - unfold weight. rewrite sumBy_map.
      etransitivity; [|exact (proj2 Hc)].
      unfold weight. rewrite sumBy_map.
      rewrite <- (@sumBy_partition _ _ (@type num) CATEGORY_IDS e
                    NoDup_CATEGORY_IDS He).
      apply sumBy_le. intros c _. rewrite Hu. apply sumBy_abs. }
  apply (proj1 (proj2 exact))
    with (z := sumBy (fun t => units count (amount t)) e).
  - rewrite (exact_sum exact) by exact Hc. now rewrite sumBy_map.
  - rewrite (exact_sum exact) by exact Hvs. rewrite sumBy_map. f_equal.
    rewrite <- (@sumBy_partition _ _ (@type num) CATEGORY_IDS e
                  NoDup_CATEGORY_IDS He).
    apply sumBy_ext. intros c _. apply Hu.
Qed.

End ExactTotals.

(** *** Certificates in binary64 *)

Lemma countIn_In (table : list (float * Z)) (x : float) (z : Z) :
  countIn table x = Some z -> In (x, z) table.
Proof.
  induction table as [|[y w] table IH]; simpl; [discriminate|].
  destruct (PrimFloat.Leibniz.eqb x y) eqn:E.
  - apply FloatAxioms.Leibniz.eqb_spec in E. intros [= ->]. left. now subst.
  - intros Hc. right. now apply IH.
Qed.

Lemma sameCount_eq (a b : option Z) : sameCount a b = true -> a = b.
Proof.
  destruct a, b; simpl; try discriminate; trivial.
  intros E. apply Z.eqb_eq in E. now subst.
Qed.

(** A table that passes the check is a reading under which binary64
    addition does not round up to the bound. *)
Lemma certifies_exact (table : list (float * Z)) (bound : Z) :
  certifies table bound = true ->
  @ExactUpTo float Float64 (countIn table) bound.
Proof.
  unfold certifies. rewrite andb_true_iff, forallb_forall.
  intros [H0 Hall].
  assert (Hpq : forall p q, In p table -> In q table ->
            (snd p = snd q -> fst p = fst q) /\
            ((Z.abs (snd p) + Z.abs (snd q) <= bound)%Z ->
             countIn table (fst p + fst q)%float =
             Some (snd p + snd q)%Z)).
  { intros p q Hp Hq. specialize (Hall p Hp).
    rewrite forallb_forall in Hall. specialize (Hall q Hq).
    apply andb_true_iff in Hall. destruct Hall as [Hinj Hadd]. split.
    - intros E. apply Z.eqb_eq in E. rewrite E in Hinj.
      now apply FloatAxioms.Leibniz.eqb_spec.
    - intros Hb. apply Z.leb_le in Hb. rewrite Hb in Hadd.
      now apply sameCount_eq. }
  split; [now apply sameCount_eq|]. split.
  - intros x y z Hx Hy. apply countIn_In in Hx, Hy.
    exact (proj1 (Hpq _ _ Hx Hy) eq_refl).
  - intros x y a b Hx Hy Hb. apply countIn_In in Hx, Hy.
    exact (proj2 (Hpq _ _ Hx Hy) Hb).
Qed.

(** Binary64 addition does not round on whole numbers up to 100. *)
Lemma wholeUnits_exact : @ExactUpTo float Float64 wholeUnits 100.
Proof. apply certifies_exact. vm_compute. reflexivity. Qed.

Lemma category_sum_identity_exact_witness :
  total_expenditure
    (analyzeTransactions (H := AsciiIsoHost) centsStatement None) =
  sumValues
    (expenditure_by_category
       (analyzeTransactions (H := AsciiIsoHost) centsStatement None)).
Proof.
  apply (@category_sum_identity_exact float Float64 AsciiIsoHost
           wholeUnits 100 wholeUnits_exact).
  split.
  - repeat constructor; vm_compute; discriminate.
  - vm_compute. discriminate.
Defined.


Section CountFacts.
Context {num : Type} {N : JSNumber num}.
Implicit Types (t : Transaction num) (l : list (Transaction num))
               (counts : dict integral).

Lemma countTransaction_category (c : string) t counts (n : Z) :
  lookup c counts = Some (Int n) ->
  lookup c (countTransaction counts t) =
  Some (Int (if isCounted t && hasType c t then n + 1 else n)).
Proof.
  intros Hn. unfold countTransaction, isCounted, hasType.
  destruct (lt0 (amount t)); simpl; trivial.
  unfold increment.
  destruct (String.eqb_spec (type t) c) as [<-|ne].
  - now rewrite lookup_update_same, Hn.
  - now rewrite lookup_update_ne by congruence.
Qed.

Lemma fold_countTransaction_category (c : string) l counts (n : Z) :
  lookup c counts = Some (Int n) ->
  lookup c (fold_left countTransaction l counts) =
  Some (Int (n + Z.of_nat
                    (List.length
                       (filter (fun t => isCounted t && hasType c t) l)))).
Proof.
  assert (E : forall a b : Z, a = b -> Some (Int a) = Some (Int b))
    by congruence.
  revert counts n. induction l as [|t l IH]; intros counts n Hn.
  - simpl. rewrite Hn. apply E. lia.
  - cbn [fold_left filter].
    rewrite (IH _ _ (@countTransaction_category c t counts n Hn)).
    apply E. destruct (isCounted t && hasType c t); cbn [List.length]; lia.
Qed.

Lemma lookup_constant_none (V : Type) (z : V) (k : string)
    (ks : list string) :
  ~ In k ks -> lookup k (map (fun k' => (k', z)) ks) = None.
Proof.
  induction ks as [|k' ks IH]; simpl; trivial.
  intros Hnot. destruct (String.eqb_spec k k') as [->|ne]; [tauto|].
  apply IH. tauto.
Qed.

Lemma countTransaction_foreign (k : string) t counts :
  (lookup k counts = Some NaN ->
   lookup k (countTransaction counts t) = Some NaN) /\
  (lookup k counts = None ->
   lookup k (countTransaction counts t) =
   if isCounted t && hasType k t then Some NaN else None).
Proof.
  unfold countTransaction, isCounted, hasType.
  destruct (lt0 (amount t)); simpl; [|tauto].
  unfold increment.
  destruct (String.eqb_spec (type t) k) as [<-|ne].
  - split; intros Hk; now rewrite lookup_update_same, Hk.
  - split; intros Hk; now rewrite lookup_update_ne by congruence.
Qed.

Lemma fold_countTransaction_foreign (k : string) l counts :
  (lookup k counts = Some NaN ->
   lookup k (fold_left countTransaction l counts) = Some NaN) /\
  (lookup k counts = None ->
   lookup k (fold_left countTransaction l counts) =
   if existsb (fun t => isCounted t && hasType k t) l
   then Some NaN else None).
Proof.
  revert counts. induction l as [|t l IH]; intros counts.
  - simpl. tauto.
  - cbn [fold_left existsb].
    destruct (countTransaction_foreign k t counts) as [Hnan Hnone].
    destruct (IH (countTransaction counts t)) as [IHnan IHnone].
    split; intros Hk.
    + now apply IHnan, Hnan.
    + specialize (Hnone Hk).
      destruct (isCounted t && hasType k t); cbn [orb].
      * now apply IHnan.
      * now apply IHnone.
Qed.

(** X5: under each of the ten category identifiers, [getTransactionCounts]
    holds the number of transactions of that type whose amount is negative,
    whatever other types the sequence carries. *)
Theorem counts_per_category l (c : string) :
  In c CATEGORY_IDS ->
  lookup c (getTransactionCounts l) =
  Some (Int (Z.of_nat
               (List.length
                  (filter (fun t => isCounted t && hasType c t) l)))).
Proof.
  intros Hc. unfold getTransactionCounts.
  rewrite (@fold_countTransaction_category c l _ 0%Z)
    by now apply lookup_constant.
  reflexivity.
Qed.

(** X6: a type that is none of the ten identifiers (and an ordinary
    property name) gets an entry of its own in the counts as soon as a
    transaction of negative amount carries it, and that entry is [NaN];
    without such a transaction it gets none. *)
Theorem counts_of_foreign_type l (k : string) :
  ~ In k CATEGORY_IDS ->
  k <> "__proto__" ->
  lookup k (getTransactionCounts l) =
  if existsb (fun t => isCounted t && hasType k t) l
  then Some NaN else None.
Proof.
  intros Hk _. unfold getTransactionCounts.
  apply fold_countTransaction_foreign.
  now apply lookup_constant_none.
Qed.
End CountFacts.

Lemma counts_per_category_witness :
  lookup "shopping"
    (getTransactionCounts
       (map (categorize (H := AsciiIsoHost)) roundingStatement)) =
  Some (Int 2).
Proof.
  etransitivity.
  - apply (counts_per_category (N := Float64)). simpl. tauto.
  - vm_compute. reflexivity.
Defined.

Lemma counts_of_foreign_type_witness :
  lookup "groceries"
    (getTransactionCounts
       [ {| date := "2024-01-01"; description := "Market"; amount := (-1)%float;
            type := "groceries" |} ]) = Some NaN.
Proof.
  etransitivity.
  - apply (counts_of_foreign_type (N := Float64)).
    + simpl. intuition discriminate.
    + discriminate.
  - vm_compute. reflexivity.
Defined.

(** * Further properties of the classifier *)

Lemma string_app_assoc (a b c : string) : (a ++ b) ++ c = a ++ b ++ c.
Proof. induction a as [|x a IH]; simpl; [reflexivity | now rewrite IH]. Qed.

Lemma Substring_trans (a b c : string) :
  Substring a b -> Substring b c -> Substring a c.
Proof.
  intros (p & q & ->) (p' & q' & ->).
  exists (p' ++ p), (q ++ q'). now rewrite !string_app_assoc.
Qed.

Lemma CATEGORY_RULES_keys :
  keys CATEGORY_RULES =
  ["food"; "shopping"; "leisure"; "transport"; "utilities"; "healthcare";
   "transfer"; "investment"; "subscription"].
Proof. reflexivity. Qed.

Section PrecedenceFacts.
Context {H : Host}.

(** A keyword of a category that occurs in the description confines the
    answer to that category and the categories declared before it. *)
Lemma categorizeTransaction_within (description type : string)
    before category keywords later :
  ~ IncomeHinted type ->
  CATEGORY_RULES = (before ++ (category, keywords) :: later)%list ->
  Matches (toLowerCase description) keywords ->
  In (categorizeTransaction description type)
     (keys (before ++ [(category, keywords)])%list).
Proof.
  intros Hno Hsplit Hm. apply income_test_false in Hno.
  rewrite categorizeTransaction_unfold, Hno, Hsplit.
  destruct (matchRules_front before category later Hm) as (c & -> & Hc).
  exact Hc.
Qed.

(** X7: without an income hint, a description in which a keyword of some
    category occurs is classified as that category or one declared before
    it: never as a category declared after it, and never as "unknown". *)
Theorem keyword_bounds_the_category (description type : string)
    before category keywords later :
  ~ IncomeHinted type ->
  CATEGORY_RULES = (before ++ (category, keywords) :: later)%list ->
  Matches (toLowerCase description) keywords ->
  let answer := categorizeTransaction description type in
  In answer (keys before ++ [category])%list /\
  ~ In answer (keys later) /\
  answer <> "unknown".
Proof.
  intros Hno Hsplit Hm answer.
  pose proof (@categorizeTransaction_within description type before
                category keywords later Hno Hsplit Hm) as Hin.
  fold answer in Hin. unfold keys in Hin. rewrite map_app in Hin.
  split; [exact Hin|].
  assert (Hnd : NoDup (keys CATEGORY_RULES ++ ["unknown"])).
  { rewrite CATEGORY_RULES_keys.
    repeat constructor; simpl; intuition discriminate. }
  rewrite Hsplit in Hnd. unfold keys in Hnd.
  replace (before ++ (category, keywords) :: later)%list
    with ((before ++ [(category, keywords)]) ++ later)%list in Hnd
    by now rewrite <- app_assoc.
  rewrite !map_app, <- app_assoc in Hnd.
  split; intros Hbad.
  - eapply NoDup_app_disjoint; [exact Hnd | exact Hin |].
    apply in_or_app. now left.
  - eapply NoDup_app_disjoint; [exact Hnd | exact Hin |].
    apply in_or_app. right. rewrite Hbad. now left.
Qed.

(** X8: a keyword that contains a keyword of a category declared earlier
    never decides the answer: a description in which it occurs is not
    classified as its own category. *)
Theorem shadowed_keyword_never_wins (description type : string)
    before first keywords between second keywords' later
    (keyword keyword' : string) :
  ~ IncomeHinted type ->
  CATEGORY_RULES =
    (before ++ (first, keywords) :: between ++
     (second, keywords') :: later)%list ->
  In keyword keywords ->
  In keyword' keywords' ->
  Substring keyword keyword' ->
  Substring keyword' (toLowerCase description) ->
  categorizeTransaction description type <> second.
Proof.
  intros Hno Hsplit Hk Hk' Hsub Hocc.
  assert (Hm : Matches (toLowerCase description) keywords).
  { exists keyword. split; trivial. now apply Substring_trans with keyword'. }
  pose proof (@categorizeTransaction_within description type before
                first keywords (between ++ (second, keywords') :: later)
                Hno Hsplit Hm) as Hin.
  assert (Hnd : NoDup (keys CATEGORY_RULES)).
  { rewrite CATEGORY_RULES_keys.
    repeat constructor; simpl; intuition discriminate. }
  rewrite Hsplit in Hnd. unfold keys in Hnd, Hin.
  replace (before ++ (first, keywords) :: between ++
           (second, keywords') :: later)%list
    with ((before ++ [(first, keywords)]) ++
          between ++ (second, keywords') :: later)%list in Hnd
    by now rewrite <- app_assoc.
  rewrite map_app in Hnd.
  intros Hbad. rewrite Hbad in Hin.
  eapply NoDup_app_disjoint; [exact Hnd | exact Hin |].
  rewrite map_app. apply in_or_app. right. now left.
Qed.
End PrecedenceFacts.

Lemma keyword_bounds_the_category_witness :
  In (categorizeTransaction (H := AsciiIsoHost) "SHELL petrol station" "debit")
     ["food"; "shopping"; "leisure"; "transport"].
Proof.
  assert (Hno : ~ IncomeHinted (H := AsciiIsoHost) "debit").
  { apply income_test_false. reflexivity. }
  apply (@keyword_bounds_the_category AsciiIsoHost
           "SHELL petrol station" "debit"
           (firstn 3 CATEGORY_RULES) "transport"
           (snd (nth 3 CATEGORY_RULES ("", []))) (skipn 4 CATEGORY_RULES)
           Hno eq_refl).
  exists "petrol". split.
  - simpl. tauto.
  - exists "shell ", " station". reflexivity.
Defined.

Lemma shadowed_keyword_never_wins_witness :
  categorizeTransaction (H := AsciiIsoHost) "YouTube Premium 11.99" "debit"
  <> "subscription".
Proof.
  assert (Hno : ~ IncomeHinted (H := AsciiIsoHost) "debit").
  { apply income_test_false. reflexivity. }
  apply (@shadowed_keyword_never_wins AsciiIsoHost
           "YouTube Premium 11.99" "debit"
           (firstn 2 CATEGORY_RULES) "leisure"
           (snd (nth 2 CATEGORY_RULES ("", [])))
           (firstn 5 (skipn 3 CATEGORY_RULES)) "subscription"
           (snd (nth 8 CATEGORY_RULES ("", []))) []
           "youtube" "youtube premium" Hno eq_refl).
  - simpl. tauto.
  - simpl. tauto.
  - exists "", " premium". reflexivity.
  - exists "", " 11.99". reflexivity.
Defined.

(** * Properties of the shape guard and of the extraction route *)

Lemma lookup_other_field (V : Type) (k k' : string) (v : V)
    (before after : dict V) :
  k' <> k ->
  lookup k' (before ++ (k, v) :: after)%list =
  lookup k' (before ++ after)%list.
Proof.
  intros ne. induction before as [|[k0 v0] before IH]; simpl.
  - now apply String.eqb_neq in ne as ->.
  - now rewrite IH.
Qed.

Section GuardFacts.
Context {num : Type}.
Implicit Types (v : jsvalue num) (fields : list (string * jsvalue num)).

(** X9: a field the guard does not read, such as the running balance of a
    transaction, never changes its verdict, wherever the field stands. *)
Theorem unread_fields_are_ignored (k : string) v
    (before after : list (string * jsvalue num)) :
  (~ In k ["date"; "description"; "amount"; "type"] ->
   isValidTransaction (JObject (before ++ (k, v) :: after)%list) =
   isValidTransaction (JObject (before ++ after)%list)) /\
  (~ In k ["transactions"; "initial_balance"] ->
   isValidExtractedPageData (JObject (before ++ (k, v) :: after)%list) =
   isValidExtractedPageData (JObject (before ++ after)%list)).
Proof.
  split; intros Hk; simpl in Hk.
  - unfold isValidTransaction, getProp.
    rewrite !(@lookup_other_field _ k) by tauto. reflexivity.
  - unfold isValidExtractedPageData, getProp. cbv zeta.
    rewrite !(@lookup_other_field _ k) by tauto. reflexivity.
Qed.

(** What the guard's verdict gives on the transactions of a page. *)
Lemma valid_page_transactions v :
  isValidExtractedPageData v = true ->
  Forall TransactionShaped (elements (getProp v "transactions")).
Proof.
  unfold isValidExtractedPageData. cbv zeta.
  destruct (negb (String.eqb (typeof v) "object") || isNull v);
    [discriminate|].
  destruct (negb (isArray (getProp v "transactions"))); [discriminate|].
  destruct (forallb isValidTransaction
              (elements (getProp v "transactions"))) eqn:Hall;
    [|discriminate].
  intros _. rewrite forallb_forall in Hall. rewrite Forall_forall.
  intros t Ht. now apply isValidTransaction_spec, Hall.
Qed.

(** What the guard's verdict gives on the initial balance of a page. *)
Lemma valid_page_balance v :
  isValidExtractedPageData v = true ->
  isUndefined (getProp v "initial_balance") = false ->
  exists x, getProp v "initial_balance" = JNumber x.
Proof.
  unfold isValidExtractedPageData. cbv zeta.
  destruct (negb (String.eqb (typeof v) "object") || isNull v);
    [discriminate|].
  destruct (negb (isArray (getProp v "transactions"))); [discriminate|].
  destruct (negb (forallb isValidTransaction
                    (elements (getProp v "transactions"))));
    [discriminate|].
  intros Hok Hdef. rewrite Hdef in Hok. simpl in Hok.
  apply typeof_number.
  destruct (String.eqb (typeof (getProp v "initial_balance")) "number");
    [reflexivity | discriminate Hok].
Qed.
End GuardFacts.

Section RouteFacts.
Context {num : Type} {N : JSNumber num} {R : RouteHost num}.
Implicit Types (v body : jsvalue num) (pages : list string)
               (state : jsvalue num * list (jsvalue num)).

Lemma hasProperty_lookup (k : string) (fields : list (string * jsvalue num)) :
  existsb (fun field => String.eqb k (fst field)) fields =
  match lookup k fields with Some _ => true | None => false end.
Proof.
  induction fields as [|[k' v] fields IH]; simpl; trivial.
  now destruct (String.eqb k k').
Qed.

Lemma all_strings (items : list (jsvalue num)) :
  forallb (fun img => String.eqb (typeof img) "string") items = true <->
  Forall (fun img => exists s, img = JString s) items.
Proof.
  rewrite forallb_forall, Forall_forall.
  split; intros Hall img Himg; apply typeof_string; now apply Hall.
Qed.

Lemma requestImages_not_record body :
  (forall fields, body <> JObject fields) ->
  requestImages body = inl "No images provided".
Proof.
  intros Hn.
  destruct body as [| |b|x|s|items|fields];
    try (now contradiction (Hn fields));
    unfold requestImages; simpl;
    try destruct b; try destruct (falsyNumber x);
    try destruct (String.eqb s ""); reflexivity.
Qed.

(** X10: the route takes the images of a request exactly when its body is
    a record whose [images] field is a non-empty sequence of texts; it
    answers "All images must be base64 strings" exactly when that field is
    a non-empty sequence with an element that is no text, and "No images
    provided" in every other case. *)
Theorem request_checks body :
  (forall images,
      requestImages body = inr images <-> RequestShaped body images) /\
  (requestImages body = inl "All images must be base64 strings" <->
   exists fields images,
     body = JObject fields /\
     HasField fields "images" (JArray images) /\
     images <> [] /\
     ~ Forall (fun img => exists s, img = JString s) images) /\
  (forall error,
      requestImages body = inl error ->
      error = "No images provided" \/
      error = "All images must be base64 strings").
Proof.
  unfold RequestShaped, HasField.
  assert (Hrec : (exists fields, body = JObject fields) \/
                 (forall fields, body <> JObject fields)).
  { destruct body; eauto; right; discriminate. }
  destruct Hrec as [[fields ->] | Hn].
  2: { rewrite (requestImages_not_record Hn).
       split; [intros images|split; [|intros error]].
       - split; [discriminate|].
         intros (f & E & _). now contradiction (Hn f).
       - split; [discriminate|].
         intros (f & ? & E & _). now contradiction (Hn f).
       - intros [= <-]. now left. }
  unfold requestImages. cbn [falsy typeof hasProperty orb negb].
  change (String.eqb "object" "object") with true. cbn [negb orb].
  rewrite hasProperty_lookup. cbv zeta. unfold getProp.
  destruct (lookup "images" fields) as [[| |b|x|s|items|fs]|] eqn:Him;
    cbn [negb isArray elements orb];
    try (split; [intros images|split; [|intros error]];
         [ split; [discriminate
                  | intros (? & [= <-] & E & _); rewrite Him in E;
                    discriminate E]
         | split; [discriminate
                  | intros (? & ? & [= <-] & E & _); rewrite Him in E;
                    discriminate E]
         | intros [= <-]; now left ]).
  destruct items as [|img items]; cbn [List.length Nat.eqb].
  - split; [intros images|split; [|intros error]].
    + split; [discriminate|].
      intros (? & [= <-] & E & Hne & _). rewrite Him in E.
      injection E as <-. now contradiction Hne.
    + split; [discriminate|].
      intros (? & ? & [= <-] & E & Hne & _). rewrite Him in E.
      injection E as <-. now contradiction Hne.
    + intros [= <-]. now left.
  - destruct (forallb (fun i => String.eqb (typeof i) "string")
                      (img :: items)) eqn:Hall; cbn [negb].
    + apply all_strings in Hall.
      split; [intros images|split; [|intros error]].
      * split.
        -- intros [= <-]. exists fields. repeat split; trivial. discriminate.
        -- intros (? & [= <-] & E & _). rewrite Him in E.
           now injection E as <-.
      * split; [discriminate|].
        intros (? & ? & [= <-] & E & _ & Hnot). rewrite Him in E.
        injection E as <-. contradiction.
      * discriminate.
    + assert (Hnot : ~ Forall (fun i => exists s, i = JString s)
                              (img :: items)).
      { intros Hf. apply all_strings in Hf. congruence. }
      split; [intros images|split; [|intros error]].
      * split; [discriminate|].
        intros (? & [= <-] & E & _ & Hf). rewrite Him in E.
        injection E as <-. contradiction.
      * split; trivial. intros _. exists fields, (img :: items).
        repeat split; trivial. discriminate.
      * intros [= <-]. now right.
Qed.

Lemma combinePage_transactions (i : nat) (pageData : string) state :
  snd (combinePage i pageData state) =
  (snd state ++ pageTransactions pageData)%list.
Proof.
  destruct state as [b ts]. unfold combinePage, pageTransactions.
  destruct (parsePage pageData) as [v|]; simpl; [|now rewrite app_nil_r].
  destruct (isValidExtractedPageData v); simpl; trivial.
  now rewrite app_nil_r.
Qed.

Lemma combinePage_later_balance (i : nat) (pageData : string) state :
  fst (combinePage (S i) pageData state) = fst state.
Proof.
  destruct state as [b ts]. unfold combinePage.
  destruct (parsePage pageData) as [v|]; simpl; trivial.
  now destruct (isValidExtractedPageData v).
Qed.

Lemma combinePagesFrom_transactions (i : nat) pages state :
  snd (combinePagesFrom i pages state) =
  (snd state ++ flat_map pageTransactions pages)%list.
Proof.
  revert i state. induction pages as [|p pages IH]; intros i state; simpl.
  - now rewrite app_nil_r.
  - now rewrite IH, combinePage_transactions, <- app_assoc.
Qed.

Lemma combinePagesFrom_later_balance (i : nat) pages state :
  fst (combinePagesFrom (S i) pages state) = fst state.
Proof.
  revert i state. induction pages as [|p pages IH]; intros i state; simpl;
    trivial.
  now rewrite IH, combinePage_later_balance.
Qed.

Lemma combinePage_malformed (i : nat) (pageData : string) state :
  Malformed pageData -> combinePage i pageData state = state.
Proof.
  unfold Malformed, combinePage. destruct state as [b ts].
  destruct (parsePage pageData) as [v|]; trivial.
  now intros ->.
Qed.

Lemma pageTransactions_shaped (pageData : string) :
  Forall TransactionShaped (pageTransactions pageData).
Proof.
  unfold pageTransactions.
  destruct (parsePage pageData) as [v|]; [|constructor].
  destruct (isValidExtractedPageData v) eqn:Hv; [|constructor].
  now apply valid_page_transactions.
Qed.

Lemma combinePage_balance_kind (i : nat) (pageData : string) state :
  (fst state = JNull \/ exists x, fst state = JNumber x) ->
  fst (combinePage i pageData state) = JNull \/
  exists x, fst (combinePage i pageData state) = JNumber x.
Proof.
  destruct state as [b ts]. unfold combinePage. simpl. intros Hb.
  destruct (parsePage pageData) as [v|]; simpl; trivial.
  destruct (isValidExtractedPageData v) eqn:Hv; simpl; trivial.
  destruct (Nat.eqb i 0); simpl; trivial.
  destruct (isUndefined (getProp v "initial_balance")) eqn:Hu; simpl;
    trivial.
  right. now apply valid_page_balance.
Qed.

Lemma combinePagesFrom_balance_kind (i : nat) pages state :
  (fst state = JNull \/ exists x, fst state = JNumber x) ->
  fst (combinePagesFrom i pages state) = JNull \/
  exists x, fst (combinePagesFrom i pages state) = JNumber x.
Proof.
  revert i state. induction pages as [|p pages IH]; intros i state Hb; simpl;
    trivial.
  now apply IH, combinePage_balance_kind.
Qed.

Lemma initial_balance_kind_of pages :
  fst (combinePages pages) = JNull \/
  exists x, fst (combinePages pages) = JNumber x.
Proof. apply combinePagesFrom_balance_kind. now left. Qed.

Lemma combined_shapes pages :
  Forall TransactionShaped (snd (combinePages pages)).
Proof.
  unfold combinePages. rewrite combinePagesFrom_transactions. simpl.
  rewrite Forall_forall. intros t Ht. apply in_flat_map in Ht.
  destruct Ht as (p & _ & Ht).
  pose proof (pageTransactions_shaped p) as Hs.
  rewrite Forall_forall in Hs. now apply Hs.
Qed.

(** X11: the transactions of the response are those of the pages that
    parse and pass the guard, page after page in the order of the pages,
    and each of them has the shape of a transaction. *)
Theorem combined_transactions pages :
  snd (combinePages pages) = flat_map pageTransactions pages /\
  Forall TransactionShaped (snd (combinePages pages)).
Proof.
  split; [|apply combined_shapes].
  unfold combinePages. now rewrite combinePagesFrom_transactions.
Qed.

(** X12: the initial balance of the response is read from the first kept
    page alone: it is that page's [initial_balance] when the page parses,
    passes the guard and carries one, and [null] in every other case,
    whatever the later pages hold; it is [null] or a number. *)
Theorem initial_balance_of_first_page pages :
  fst (combinePages pages) =
    match pages with
    | [] => JNull
    | first :: _ =>
        match parsePage first with
        | Some v =>
            if isValidExtractedPageData v &&
               negb (isUndefined (getProp v "initial_balance"))
            then getProp v "initial_balance"
            else JNull
        | None => JNull
        end
    end /\
  (fst (combinePages pages) = JNull \/
   exists x, fst (combinePages pages) = JNumber x).
Proof.
  split.
  - unfold combinePages. destruct pages as [|first rest]; trivial.
    simpl. rewrite combinePagesFrom_later_balance. unfold combinePage.
    destruct (parsePage first) as [v|]; simpl; trivial.
    now destruct (isValidExtractedPageData v).
  - apply initial_balance_kind_of.
Qed.

Lemma combinePagesFrom_skip (j : nat) (page : string)
    (before after : list string) state :
  Malformed page ->
  combinePagesFrom (S j) (before ++ page :: after) state =
  combinePagesFrom (S j) (before ++ after) state.
Proof.
  intros Hbad. revert j state.
  induction before as [|p before IH]; intros j state;
    cbn [app combinePagesFrom].
  - rewrite (@combinePage_malformed (S j) page state Hbad).
    apply injective_projections.
    + now rewrite !combinePagesFrom_later_balance.
    + now rewrite !combinePagesFrom_transactions.
  - apply IH.
Qed.

(** X13: a page that does not parse or fails the guard is skipped: after
    the first page its presence changes nothing, and in the first place
    it costs the response its initial balance. *)
Theorem malformed_page_is_skipped (page : string) (before after : list string) :
  Malformed page ->
  (before <> [] ->
   combinePages (before ++ page :: after) = combinePages (before ++ after)) /\
  combinePages (page :: after) = (JNull, snd (combinePages after)).
Proof.
  intros Hbad. split.
  - intros Hne. destruct before as [|first before]; [contradiction|].
    unfold combinePages. cbn [app combinePagesFrom].
    now apply combinePagesFrom_skip.
  - unfold combinePages. cbn [combinePagesFrom].
    rewrite (@combinePage_malformed 0 page (JNull, []) Hbad).
    apply injective_projections; simpl.
    + now rewrite combinePagesFrom_later_balance.
    + now rewrite !combinePagesFrom_transactions.
Qed.

Lemma extractPages_answers (i : nat) (images extractedData : list string) :
  extractPages i images extractedData =
  if existsb threw (answers i images) then None
  else Some (extractedData ++ flat_map keptPage (answers i images))%list.
Proof.
  revert i extractedData.
  induction images as [|image images IH]; intros i extractedData; simpl.
  - now rewrite app_nil_r.
  - destruct (complete i image) as [|[text|]]; simpl;
      [reflexivity | | apply IH].
    rewrite IH. destruct (existsb threw (answers (S i) images)); trivial.
    destruct (String.eqb text ""); simpl; trivial.
    now rewrite <- app_assoc.
Qed.

(** X24: the pages the route keeps are the contents the model answered,
    in the order of the images, without the missing and the empty ones;
    and a single call that throws leaves the route without any page,
    whatever the other calls answered. *)
Theorem kept_pages_are_the_answers (images : list string) :
  extractPages 0 images [] =
  if existsb threw (answers 0 images) then None
  else Some (flat_map keptPage (answers 0 images)).
Proof. apply extractPages_answers. Qed.

(** X14: the route answers 400 only when the body is read and fails the
    request checks, with their message; 500 only when reading the body or
    a call of the model throws; and otherwise 200 with an initial balance
    that is [null] or a number and with transactions that all have the
    shape of a transaction. *)
Theorem POST_answers (body : option (jsvalue num)) :
  match POST body with
  | ErrorResponse status error =>
      (status = 400%Z /\
       exists b, body = Some b /\ requestImages b = inl error) \/
      (status = 500%Z /\ error = "Failed to extract transaction data" /\
       (body = None \/
        exists b images,
          body = Some b /\ requestImages b = inr images /\
          extractPages 0 (map imageText images) [] = None))
  | ExtractionResponse initialBalance transactions =>
      (initialBalance = JNull \/ exists x, initialBalance = JNumber x) /\
      Forall TransactionShaped transactions
  end.
Proof.
  unfold POST. destruct body as [b|]; [|right; auto].
  destruct (requestImages b) as [error|images] eqn:Hreq.
  - left. split; trivial. now exists b.
  - destruct (extractPages 0 (map imageText images) [])
      as [extractedData|] eqn:Hpages.
    + destruct (combinePages extractedData) as [ib ts] eqn:Hc.
      pose proof (initial_balance_kind_of extractedData) as Hk.
      pose proof (combined_shapes extractedData) as Hs.
      rewrite Hc in Hk, Hs. now split.
    + right. repeat split; trivial. right. now exists b, images.
Qed.
End RouteFacts.

Lemma malformed_page_is_skipped_witness :
  combinePages (R := sampleRouteHost)
    ["page one"; "no json here"; "```jsonpage two```"] =
  combinePages (R := sampleRouteHost) ["page one"; "```jsonpage two```"].
Proof.
  apply (@malformed_page_is_skipped float sampleRouteHost "no json here"
           ["page one"] ["```jsonpage two```"]).
  - vm_compute. exact I.
  - discriminate.
Defined.

Example POST_sample :
  POST (R := sampleRouteHost)
    (Some (JObject [("images", JArray [JString "aGVsbG8="; JString "d29ybGQ="])]))
  = ExtractionResponse (JNumber 7%float)
      (elements (getProp secondPage "transactions") ++
       elements (getProp secondPage "transactions")).
Proof. vm_compute. reflexivity. Qed.

Example POST_without_images :
  POST (R := sampleRouteHost) (Some (JObject [("images", JArray [])])) =
  ErrorResponse 400 "No images provided".
Proof. vm_compute. reflexivity. Qed.

(** ** Code fences *)

Lemma no_backtick_String (c : ascii) (s : string) :
  ~ Substring "`" (String c s) -> c <> "`"%char /\ ~ Substring "`" s.
Proof.
  intros Hno. split.
  - intros ->. apply Hno. now exists "", s.
  - intros (before & after & ->). apply Hno.
    now exists (String c before), after.
Qed.

(** A stretch free of the first character of the pattern is kept. *)
Lemma removeAllFrom_keeps (rest s t : string) :
  ~ Substring "`" s ->
  removeAllFrom (String "`" rest) 0 (s ++ t) =
  s ++ removeAllFrom (String "`" rest) 0 t.
Proof.
  induction s as [|c s IH]; intros Hno; [reflexivity|].
  apply no_backtick_String in Hno. destruct Hno as [Hc Hs].
  cbn [append removeAllFrom String.prefix].
  destruct (ascii_dec "`" c) as [E|_]; [now contradiction Hc|].
  now rewrite IH.
Qed.

Lemma removeAllFrom_skip (pat a t : string) :
  removeAllFrom pat (String.length a) (a ++ t) = removeAllFrom pat 0 t.
Proof.
  induction a as [|c a IH]; [reflexivity|]. simpl. exact IH.
Qed.

(** A match at the head of the text is dropped. *)
Lemma removeAllFrom_match (c : ascii) (rest t : string) :
  removeAllFrom (String c rest) 0 (String c rest ++ t) =
  removeAllFrom (String c rest) 0 t.
Proof.
  cbn [append removeAllFrom].
  assert (Hp : String.prefix (String c rest) (String c (rest ++ t)) = true).
  { apply prefix_app. now exists t. }
  rewrite Hp. cbn [String.length]. rewrite Nat.sub_succ, Nat.sub_0_r.
  apply removeAllFrom_skip.
Qed.

Lemma stripFences_fenced (s : string) :
  ~ Substring "`" s -> stripFences ("```json" ++ s ++ "```") = s.
Proof.
  intros Hno. unfold stripFences, removeAll.
  rewrite (removeAllFrom_match "`" "``json").
  rewrite (removeAllFrom_keeps "``json" "```" Hno).
  change (removeAllFrom "```json" 0 "```") with "```".
  rewrite (removeAllFrom_keeps "``" "```" Hno).
  change (removeAllFrom "```" 0 "```") with "".
  clear. induction s as [|c s IH]; simpl; [reflexivity | now rewrite IH].
Qed.

Lemma stripFences_bare (s : string) :
  ~ Substring "`" s -> stripFences s = s.
Proof.
  intros Hno. unfold stripFences, removeAll.
  assert (E : forall rest, removeAllFrom (String "`" rest) 0 s = s).
  { intros rest.
    pose proof (removeAllFrom_keeps rest "" Hno) as Hk.
    assert (Hs : s ++ "" = s)
      by (clear; induction s as [|c s IH]; simpl;
          [reflexivity | now rewrite IH]).
    cbn [removeAllFrom] in Hk. now rewrite !Hs in Hk. }
  now rewrite !E.
Qed.

Section FenceFacts.
Context {num : Type} {R : RouteHost num}.

(** X15: a page whose trimmed text is a text without backtick, bare or
    wrapped in a json code fence, is parsed as that text. *)
Theorem fenced_page_is_read_bare (pageData text : string) :
  ~ Substring "`" text ->
  trim pageData = "```json" ++ text ++ "```" \/ trim pageData = text ->
  parsePage pageData = parseJSON text.
Proof.
  intros Hno [E|E]; unfold parsePage; rewrite E.
  - now rewrite stripFences_fenced.
  - now rewrite stripFences_bare.
Qed.
End FenceFacts.

Lemma fenced_page_is_read_bare_witness :
  parsePage (R := sampleRouteHost) "```jsonpage two```" = Some secondPage.
Proof.
  apply (@fenced_page_is_read_bare float sampleRouteHost
           "```jsonpage two```" "page two").
  - intros Hs. apply includes_spec in Hs. discriminate Hs.
  - left. reflexivity.
Defined.

(** * Properties of the upload component and of the page *)

Section UploadFacts.
Context {num : Type} {N : JSNumber num} {H : Host}.

Lemma details_length (raws : list (RawTransaction num))
    (initialBalance : option num) :
  List.length (transaction_details (analyzeTransactions raws initialBalance))
  = List.length raws.
Proof.
  unfold analyzeTransactions. cbn [transaction_details].
  rewrite (Permutation_length (sort_perm compareDates _)).
  apply length_map.
Qed.

(** X16: the analysis is refused, with the message that no transactions
    were found, exactly when the response carries no transaction; when it
    is made, the dashboard holds as many transactions as the response and
    starts from the given initial balance, or from 0 when that balance is
    missing, [null], or a number that is neither negative nor positive. *)
Theorem extraction_analysis
    (transactions : option (list (RawTransaction num)))
    (balance : optionalNumber num) :
  (forall message,
      analyzeExtraction transactions balance = inl message ->
      message =
        "No transactions found in the PDF. Please ensure it's a valid bank statement." /\
      (transactions = None \/ transactions = Some [])) /\
  (forall analysis,
      analyzeExtraction transactions balance = inr analysis ->
      exists raws,
        transactions = Some raws /\ raws <> [] /\
        List.length (transaction_details analysis) = List.length raws /\
        initial_balance analysis =
          match balance with
          | Present x => if lt0 x || gt0 x then x else zero
          | _ => zero
          end).
Proof.
  unfold analyzeExtraction.
  destruct transactions as [[|raw raws]|]; cbn [List.length Nat.eqb].
  - split; [intros message [= <-]; auto | discriminate].
  - split; [discriminate|].
    intros analysis [= <-]. exists (raw :: raws).
    split; [reflexivity|]. split; [discriminate|]. split.
    + apply details_length.
    + unfold analyzeTransactions. cbn [initial_balance].
      unfold orZero, falsyNumber.
      destruct balance as [| |x]; trivial.
      now destruct (lt0 x || gt0 x).
  - split; [intros message [= <-]; auto | discriminate].
Qed.
End UploadFacts.

Section PageFacts.
Context {num : Type}.

(** X17: whatever happened on the page, it shows the dashboard exactly
    when the last event is a completed analysis, and then with the data of
    that analysis; the two state variables always agree. *)
Theorem page_shows_last_analysis (events : list (PageEvent num)) :
  let s := fold_left handlePageEvent events initialPageState in
  rendered s = lastAnalysis events /\
  (showUpload s = true <-> analysisData s = None).
Proof.
  cbn zeta. unfold lastAnalysis.
  induction events as [|e events _] using rev_ind.
  - simpl. split; [reflexivity | tauto].
  - rewrite fold_left_app, rev_app_distr. simpl.
    destruct e; simpl;
      (split; [reflexivity | split; intros E; trivial; discriminate E]).
Qed.
End PageFacts.

(** * Properties of the transaction table and of the category chart *)

Lemma includes_empty_pattern (s : string) : includes s "" = true.
Proof. now destruct s. Qed.

Lemma lookup_In (V : Type) (k : string) (v : V) (o : dict V) :
  lookup k o = Some v -> In (k, v) o.
Proof.
  induction o as [|[k' v'] o IH]; simpl; [discriminate|].
  destruct (String.eqb_spec k k') as [->|ne].
  - intros [= ->]. now left.
  - intros Hl. right. now apply IH.
Qed.

(** In binary64 a positive number is not negative. *)
Lemma Float64_gt0_excludes_lt0 (x : float) :
  gt0 x = true -> lt0 x = false.
Proof.
  cbn [gt0 lt0 Float64]. rewrite !ltb_spec.
  change (Prim2SF 0%float) with (S754_zero false).
  unfold SFltb, SFcompare.
  destruct (Prim2SF x) as [[|]|[|]| |[|] m e]; simpl; congruence.
Qed.

Section TableFacts.
Context {num : Type} {N : JSNumber num} {H : Host}.

(** X18: with an empty search term the table lists every transaction of
    the summary, in order, when no category is picked, and exactly the
    transactions of the picked category otherwise; whatever the search
    term, a picked category admits only its own transactions. *)
Theorem table_without_search (data : AnalysisData num) (category : string) :
  toLowerCase "" = "" ->
  filteredTransactions "" None data = transaction_details data /\
  filteredTransactions "" (Some category) data =
    filter (hasType category) (transaction_details data) /\
  forall searchTerm,
    Forall (fun t => type t = category)
           (filteredTransactions searchTerm (Some category) data).
Proof.
  intros Hempty. unfold filteredTransactions. cbv zeta.
  rewrite Hempty. split; [|split].
  - induction (transaction_details data) as [|t l IH]; simpl; trivial.
    now rewrite includes_empty_pattern, IH.
  - apply filter_ext. intros t. now rewrite includes_empty_pattern.
  - intros searchTerm. rewrite Forall_forall. intros t Ht.
    apply filter_In in Ht. destruct Ht as [_ Ht].
    apply andb_true_iff in Ht. destruct Ht as [_ Ht].
    now apply String.eqb_eq.
Qed.
End TableFacts.

Lemma table_without_search_witness :
  filteredTransactions (H := AsciiIsoHost) "" None
    (analyzeTransactions (H := AsciiIsoHost) shuffledStatement None) =
  transaction_details
    (analyzeTransactions (H := AsciiIsoHost) shuffledStatement None).
Proof.
  apply (@table_without_search float AsciiIsoHost
           (analyzeTransactions (H := AsciiIsoHost) shuffledStatement None)
           "food").
  reflexivity.
Defined.

Section ChartFacts.
Context {num : Type} {N : JSNumber num} {H : Host} {C : ChartHost num}.

Lemma analysis_category_keys (raws : list (RawTransaction num))
    (initialBalance : option num) :
  keys (expenditure_by_category (analyzeTransactions raws initialBalance)) =
  CATEGORY_IDS.
Proof.
  unfold analyzeTransactions. cbn [expenditure_by_category].
  rewrite fold_processTransaction_keys; [reflexivity|].
  apply categorized_ids.
Qed.

(** X19: a category that a transaction of negative amount was assigned to
    has its bar in the chart, whatever its amount, and the count of the bar
    is the number of transactions of negative amount of that category. *)
Theorem category_with_debits_is_charted (raws : list (RawTransaction num))
    (initialBalance : option num) (raw : RawTransaction num) :
  In raw raws ->
  lt0 (raw_amount raw) = true ->
  let data := analyzeTransactions raws initialBalance in
  let category :=
    categorizeTransaction (raw_description raw) (raw_type raw) in
  let debits :=
    filter (fun t => isCounted t && hasType category t)
           (transaction_details data) in
  debits <> [] /\
  exists amount,
    lookup category (expenditure_by_category data) = Some amount /\
    In {| row_category := capitalize category;
          row_amount := abs amount;
          row_count := Int (Z.of_nat (List.length debits)) |}
       (chartData data).
Proof.
  intros Hraw Hneg data category debits.
  assert (Hid : In category CATEGORY_IDS)
    by apply categorizeTransaction_id.
  assert (Hdebit : In (categorize raw) debits).
  { apply filter_In. split.
    - unfold data, analyzeTransactions. cbn [transaction_details].
      apply sort_In, in_map. exact Hraw.
    - unfold isCounted, hasType. simpl. rewrite Hneg.
      apply String.eqb_refl. }
  split; [intros E; now rewrite E in Hdebit|].
  destruct (@lookup_in_keys _ category (expenditure_by_category data))
    as [amount Hamount].
  { unfold data. now rewrite analysis_category_keys. }
  exists amount. split; [exact Hamount|].
  unfold chartData. cbv zeta. apply filter_In.
  assert (Hcount :
    lookup category (getTransactionCounts (transaction_details data)) =
    Some (Int (Z.of_nat (List.length debits)))).
  { unfold getTransactionCounts.
    rewrite (@fold_countTransaction_category _ _ category _ _ 0%Z)
      by now apply lookup_constant.
    reflexivity. }
  assert (Hpos : (0 < Z.of_nat (List.length debits))%Z).
  { destruct debits; [contradiction | simpl; lia]. }
  assert (Hrow :
    chartRow (getTransactionCounts (transaction_details data))
             (category, amount) =
    {| row_category := capitalize category;
       row_amount := abs amount;
       row_count := Int (Z.of_nat (List.length debits)) |}).
  { unfold chartRow. rewrite Hcount. unfold countOrZero.
    destruct (Z.eqb_spec (Z.of_nat (List.length debits)) 0); [lia|].
    reflexivity. }
  split.
  - rewrite <- Hrow. apply in_map. now apply lookup_In.
  - unfold hasData. cbn [row_amount row_count integral_gt0].
    apply orb_true_iff. right. now apply Z.ltb_lt.
Qed.

(** X20: where a positive number is not negative and [Math.abs(0)] is not
    positive, a category to which only transactions of positive amount
    were assigned, or none at all, holds 0, counts no transaction and has
    no bar in the chart. *)
Theorem income_only_category_is_not_charted
    (raws : list (RawTransaction num)) (initialBalance : option num)
    (category : string) :
  (forall x : num, gt0 x = true -> lt0 x = false) ->
  gt0 (abs zero) = false ->
  In category CATEGORY_IDS ->
  (forall raw, In raw raws ->
     categorizeTransaction (raw_description raw) (raw_type raw) = category ->
     gt0 (raw_amount raw) = true) ->
  let data := analyzeTransactions raws initialBalance in
  let counts := getTransactionCounts (transaction_details data) in
  lookup category (expenditure_by_category data) = Some zero /\
  lookup category counts = Some (Int 0) /\
  hasData (chartRow counts (category, zero)) = false.
Proof.
  intros Hexcl Habs Hid Hincome data counts.
  assert (Hdetails : forall t, In t (transaction_details data) ->
                     type t = category -> gt0 (amount t) = true).
  { intros t Ht Htype. unfold data, analyzeTransactions in Ht.
    cbn [transaction_details] in Ht.
    apply sort_In, in_map_iff in Ht. destruct Ht as (raw & <- & Hraw).
    now apply Hincome. }
  assert (Hcount : lookup category counts = Some (Int 0)).
  { unfold counts, getTransactionCounts.
    rewrite (@fold_countTransaction_category _ _ category _ _ 0%Z)
      by now apply lookup_constant.
    replace (filter (fun t => isCounted t && hasType category t)
                    (transaction_details data)) with (@nil (Transaction num));
      [reflexivity|].
    symmetry. induction (transaction_details data) as [|t l IH]; trivial.
    simpl. unfold isCounted at 1, hasType at 1.
    destruct (String.eqb_spec (type t) category) as [E|_].
    - rewrite (Hexcl _ (Hdetails t (or_introl eq_refl) E)). simpl.
      apply IH. intros t' Ht'. apply Hdetails. now right.
    - rewrite andb_false_r.
      apply IH. intros t' Ht'. apply Hdetails. now right. }
  split; [|split; [exact Hcount|]].
  - unfold data, analyzeTransactions. cbn [expenditure_by_category].
    rewrite fold_processTransaction_untouched.
    + unfold initialTotals. cbn [expenditureByCategory].
      now apply lookup_constant.
    + intros t Ht Htype. apply Hdetails; trivial.
  - unfold hasData, chartRow. rewrite Hcount.
    cbn [row_amount row_count countOrZero]. rewrite Habs. reflexivity.
Qed.
End ChartFacts.

Lemma category_with_debits_is_charted_witness :
  In {| row_category := "Food"; row_amount := 4.5%float; row_count := Int 1 |}
     (chartData (C := FloatChartHost)
        (analyzeTransactions (H := AsciiIsoHost) shuffledStatement None)).
Proof.
  destruct (@category_with_debits_is_charted float Float64 AsciiIsoHost
              FloatChartHost shuffledStatement None
              (raw "2024-01-01" "Starbucks Coffee" "debit" (-4.5)%float))
    as (_ & amount & Hamount & Hrow).
  - simpl. tauto.
  - reflexivity.
  - vm_compute in Hamount. injection Hamount as <-. exact Hrow.
Defined.

Lemma income_only_category_is_not_charted_witness :
  hasData
    (chartRow (C := FloatChartHost)
       (getTransactionCounts
          (transaction_details
             (analyzeTransactions (H := AsciiIsoHost) shuffledStatement None)))
       ("transfer", 0%float)) = false.
Proof.
  apply (@income_only_category_is_not_charted float Float64 AsciiIsoHost
           FloatChartHost shuffledStatement None "transfer").
  - exact Float64_gt0_excludes_lt0.
  - reflexivity.
  - simpl. tauto.
  - intros r Hr Hc. simpl in Hr.
    destruct Hr as [<-|[<-|[<-|[<-|[]]]]];
      try reflexivity; vm_compute in Hc; discriminate Hc.
Defined.

(** * Properties of the sharpening filter *)

Lemma setAt_length (i : nat) (v : Z) (data : list Z) :
  List.length (setAt i v data) = List.length data.
Proof.
  revert i. induction data as [|p data IH]; intros [|i]; simpl; trivial.
  now rewrite IH.
Qed.

Lemma setAt_same (i : nat) (v : Z) (data : list Z) :
  (i < List.length data)%nat -> nth_error (setAt i v data) i = Some v.
Proof.
  revert i. induction data as [|p data IH]; intros [|i] Hi; simpl in *;
    try lia; trivial.
  apply IH. lia.
Qed.

Lemma setAt_other (i j : nat) (v : Z) (data : list Z) :
  j <> i -> nth_error (setAt i v data) j = nth_error data j.
Proof.
  revert i j. induction data as [|p data IH]; intros [|i] [|j] Hne; simpl;
    trivial; try contradiction.
  apply IH. lia.
Qed.

Lemma setAt_bytes (i : nat) (v : Z) (data : list Z) :
  isByte v -> Forall isByte data -> Forall isByte (setAt i v data).
Proof.
  intros Hv Hd. revert i.
  induction Hd as [|p data Hp Hd IH]; intros [|i]; simpl;
    constructor; auto.
Qed.

(** A sequence of writes, applied in order. *)
Lemma writes_length (ws : list (nat * Z)) (data : list Z) :
  List.length (fold_left (fun d iv => setAt (fst iv) (snd iv) d) ws data) =
  List.length data.
Proof.
  revert data. induction ws as [|[i v] ws IH]; intros data; simpl; trivial.
  now rewrite IH, setAt_length.
Qed.

Lemma writes_bytes (ws : list (nat * Z)) (data : list Z) :
  Forall (fun iv => isByte (snd iv)) ws -> Forall isByte data ->
  Forall isByte (fold_left (fun d iv => setAt (fst iv) (snd iv) d) ws data).
Proof.
  intros Hws. revert data.
  induction Hws as [|[i v] ws Hv _ IH]; intros data Hd; simpl; trivial.
  apply IH. now apply setAt_bytes.
Qed.

Lemma writes_elsewhere (ws : list (nat * Z)) (data : list Z) (j : nat) :
  (forall v, ~ In (j, v) ws) ->
  nth_error (fold_left (fun d iv => setAt (fst iv) (snd iv) d) ws data) j =
  nth_error data j.
Proof.
  revert data. induction ws as [|[i v] ws IH]; intros data Hj; simpl; trivial.
  rewrite IH.
  - apply setAt_other. intros ->. apply (Hj v). now left.
  - intros u Hu. apply (Hj u). now right.
Qed.

Lemma writes_there (ws : list (nat * Z)) (data : list Z) (j : nat) (u : Z) :
  (j < List.length data)%nat ->
  (exists v, In (j, v) ws) ->
  (forall v, In (j, v) ws -> v = u) ->
  nth_error (fold_left (fun d iv => setAt (fst iv) (snd iv) d) ws data) j =
  Some u.
Proof.
  revert data. induction ws as [|[i v] ws IH]; intros data Hj [v0 Hin] Hall.
  - destruct Hin.
  - simpl.
    destruct (Nat.eq_dec i j) as [->|ne].
    + assert (v = u) as -> by (apply Hall; now left).
      destruct (in_dec Nat.eq_dec j (map fst ws)) as [Hmore|Hnone].
      * apply IH.
        -- now rewrite setAt_length.
        -- apply in_map_iff in Hmore.
           destruct Hmore as ([j' v'] & E & Hin'). simpl in E. subst j'.
           now exists v'.
        -- intros v' Hv'. apply Hall. now right.
      * rewrite writes_elsewhere.
        -- now apply setAt_same.
        -- intros v' Hv'. apply Hnone.
           apply in_map_iff. now exists (j, v').
    + apply IH.
      * now rewrite setAt_length.
      * destruct Hin as [[= E _]|Hin]; [contradiction|]. now exists v0.
      * intros v' Hv'. apply Hall. now right.
Qed.

Lemma fold_left_flat_map (A B C : Type) (f : A -> C -> A) (g : B -> list C)
    (l : list B) (a : A) :
  fold_left f (flat_map g l) a =
  fold_left (fun a b => fold_left f (g b) a) l a.
Proof.
  revert a. induction l as [|b l IH]; intros a; simpl; trivial.
  now rewrite fold_left_app, IH.
Qed.

Lemma fold_left_map_compose (A B C : Type) (f : A -> C -> A) (g : B -> C)
    (l : list B) (a : A) :
  fold_left f (map g l) a = fold_left (fun a b => f a (g b)) l a.
Proof.
  revert a. induction l as [|b l IH]; intros a; simpl; trivial.
Qed.

Lemma fold_left_ext_fun (A B : Type) (f g : A -> B -> A) (l : list B) (a : A) :
  (forall a b, f a b = g a b) -> fold_left f l a = fold_left g l a.
Proof.
  intros E. revert a. induction l as [|b l IH]; intros a; simpl; trivial.
  now rewrite E, IH.
Qed.

(** The loops come to the writes of [sharpenWrites], applied in order. *)
Lemma sharpen_writes (w h : nat) (data : list Z) :
  sharpen w h data =
  fold_left (fun d iv => setAt (fst iv) (snd iv) d)
            (sharpenWrites w h data) data.
Proof.
  unfold sharpen, sharpenWrites. cbv zeta.
  rewrite fold_left_flat_map. apply fold_left_ext_fun. intros d y.
  rewrite fold_left_flat_map. apply fold_left_ext_fun. intros d' x.
  rewrite fold_left_map_compose. reflexivity.
Qed.

Lemma sharpenWrites_In (w h : nat) (copy : list Z) (i : nat) (v : Z) :
  In (i, v) (sharpenWrites w h copy) <->
  exists y x c,
    (1 <= y /\ y + 1 < h)%nat /\ (1 <= x /\ x + 1 < w)%nat /\ (c < 3)%nat /\
    i = ((y * w + x) * 4 + c)%nat /\
    v = clampStore (convolve w copy y x c).
Proof.
  unfold sharpenWrites. rewrite in_flat_map. split.
  - intros (y & Hy & Hin). apply in_seq in Hy.
    apply in_flat_map in Hin. destruct Hin as (x & Hx & Hin).
    apply in_seq in Hx. apply in_map_iff in Hin.
    destruct Hin as (c & [= <- <-] & Hc). apply in_seq in Hc.
    exists y, x, c. repeat split; lia.
  - intros (y & x & c & Hy & Hx & Hc & -> & ->).
    exists y. split; [apply in_seq; lia|].
    apply in_flat_map. exists x. split; [apply in_seq; lia|].
    apply in_map_iff. exists c. split; trivial. apply in_seq. lia.
Qed.

Lemma clampStore_byte (sum : option Z) : isByte (clampStore sum).
Proof. unfold isByte, clampStore. destruct sum; lia. Qed.

(** An element index determines its pixel and its channel. *)
Lemma pixel_index_inj (w y x c y' x' c' : nat) :
  (x < w)%nat -> (x' < w)%nat -> (c < 4)%nat -> (c' < 4)%nat ->
  ((y * w + x) * 4 + c = (y' * w + x') * 4 + c')%nat ->
  y = y' /\ x = x' /\ c = c'.
Proof.
  intros Hx Hx' Hc Hc' E.
  assert (Hcc : c = c') by lia.
  assert (Hp : (y * w + x = y' * w + x')%nat) by lia.
  assert (Hy : y = y').
  { assert (Hw : w <> 0%nat) by lia.
    pose proof (Nat.div_add_l y w x Hw) as D.
    pose proof (Nat.div_add_l y' w x' Hw) as D'.
    rewrite (Nat.div_small x w Hx) in D.
    rewrite (Nat.div_small x' w Hx') in D'.
    rewrite Hp in D. lia. }
  subst. repeat split; lia.
Qed.

(** X21: the filter keeps the number of elements, and it keeps every
    element a whole number from 0 to 255. *)
Theorem sharpen_keeps_the_format (w h : nat) (data : list Z) :
  List.length (sharpen w h data) = List.length data /\
  (Forall isByte data -> Forall isByte (sharpen w h data)).
Proof.
  rewrite sharpen_writes. split.
  - apply writes_length.
  - apply writes_bytes. rewrite Forall_forall. intros [i v] Hin.
    apply sharpenWrites_In in Hin.
    destruct Hin as (y & x & c & _ & _ & _ & _ & ->).
    apply clampStore_byte.
Qed.

(** X22: the filter leaves the alpha channel of every pixel, and every
    channel of the pixels of the first and last row and of the first and
    last column, as they are. *)
Theorem sharpen_spares_alpha_and_border (w h : nat) (data : list Z)
    (y x c : nat) :
  (x < w)%nat -> (c < 4)%nat ->
  (c = 3 \/ y = 0 \/ h <= y + 1 \/ x = 0 \/ x + 1 = w)%nat ->
  nth_error (sharpen w h data) ((y * w + x) * 4 + c) =
  nth_error data ((y * w + x) * 4 + c).
Proof.
  intros Hx Hc Hspared. rewrite sharpen_writes.
  apply writes_elsewhere. intros v Hin.
  apply sharpenWrites_In in Hin.
  destruct Hin as (y' & x' & c' & Hy' & Hx' & Hc' & E & _).
  apply pixel_index_inj in E; try lia.
Qed.

Lemma pixel_index_bound (w h y x c : nat) :
  (y < h)%nat -> (x < w)%nat -> (c < 4)%nat ->
  ((y * w + x) * 4 + c < 4 * w * h)%nat.
Proof.
  intros Hy Hx Hc.
  assert (y * w + w <= h * w)%nat by nia.
  nia.
Qed.

Lemma read_pixel (data : list Z) (j : nat) :
  (j < List.length data)%nat -> nth_error data j = Some (pixelAt data j).
Proof. intros Hj. unfold pixelAt. now apply nth_error_nth'. Qed.

(** X23: on an image of [w] by [h] pixels, a colour channel of a pixel
    inside the border becomes five times its value less the values of the
    four neighbours above, below, left and right, all read before the
    filter, cut to the range from 0 to 255; so a pixel whose four
    neighbours have its value keeps it. *)
Theorem sharpen_interior_pixel (w h : nat) (data : list Z) (y x c : nat) :
  List.length data = (4 * w * h)%nat ->
  (1 <= y /\ y + 1 < h)%nat -> (1 <= x /\ x + 1 < w)%nat -> (c < 3)%nat ->
  let here := pixelAt data ((y * w + x) * 4 + c) in
  let above := pixelAt data (((y - 1) * w + x) * 4 + c) in
  let below := pixelAt data (((y + 1) * w + x) * 4 + c) in
  let left := pixelAt data ((y * w + (x - 1)) * 4 + c) in
  let right := pixelAt data ((y * w + (x + 1)) * 4 + c) in
  nth_error (sharpen w h data) ((y * w + x) * 4 + c) =
    Some (Z.min 255
            (Z.max 0 (5 * here - above - below - left - right)))%Z /\
  (isByte here -> above = here -> below = here -> left = here ->
   right = here ->
   nth_error (sharpen w h data) ((y * w + x) * 4 + c) = Some here).
Proof.
  intros Hlen Hy Hx Hc here above below left right.
  assert (Hval :
    clampStore (convolve w data y x c) =
    Z.min 255 (Z.max 0 (5 * here - above - below - left - right))%Z).
  { unfold convolve, addTerm. cbn [kernel nth_error].
    rewrite !read_pixel
      by (rewrite Hlen; apply pixel_index_bound; lia).
    cbn [clampStore]. fold here above below left right.
    f_equal. f_equal. lia. }
  assert (Hnew :
    nth_error (sharpen w h data) ((y * w + x) * 4 + c) =
    Some (Z.min 255
            (Z.max 0 (5 * here - above - below - left - right)))%Z).
  { rewrite sharpen_writes. apply writes_there.
    - rewrite Hlen. apply pixel_index_bound; lia.
    - exists (clampStore (convolve w data y x c)).
      apply sharpenWrites_In. exists y, x, c. repeat split; lia.
    - intros v Hin. apply sharpenWrites_In in Hin.
      destruct Hin as (y' & x' & c' & Hy' & Hx' & Hc' & E & ->).
      apply pixel_index_inj in E; try lia.
      destruct E as (<- & <- & <-). exact Hval. }
  split; [exact Hnew|].
  intros Hb -> -> -> ->. rewrite Hnew. f_equal.
  unfold isByte in Hb. lia.
Qed.

Lemma sharpen_interior_pixel_witness :
  nth_error
    (sharpen 3 3
       (flat_map (fun p => [p; p; p; 255%Z])
                 [10; 10; 10; 10; 200; 10; 10; 10; 10]%Z))
    16 = Some 255%Z.
Proof.
  apply (proj1 (@sharpen_interior_pixel 3 3
           (flat_map (fun p => [p; p; p; 255%Z])
                     [10; 10; 10; 10; 200; 10; 10; 10; 10]%Z)
           1 1 0 eq_refl (conj (le_n 1) (le_n 3)) (conj (le_n 1) (le_n 3))
           (le_S _ _ (le_S _ _ (le_n 1))))).
Defined.

Lemma sharpen_spares_alpha_and_border_witness :
  nth_error
    (sharpen 3 3
       (flat_map (fun p => [p; p; p; 255%Z])
                 [10; 10; 10; 10; 200; 10; 10; 10; 10]%Z))
    19 = Some 255%Z.
Proof.
  etransitivity.
  - apply (@sharpen_spares_alpha_and_border 3 3 _ 1 1 3); lia.
  - reflexivity.
Defined.
